(** * N-Queens benchmark driver: runner, statistics scan, batch loop, summaries

    A shallow embedding of [benchmark.py] and of the two reductions of
    [visualize.py], with the properties of the benchmark pipeline stated
    and settled against it.

    Modelling conventions.
    - Python [str] values are [string]s: the bytes of the UTF-8 text;
      letter case and blanks are those of ASCII.
    - Python [int] values are [Z].
    - A Python [float] is a rational number, an infinity or NaN
      ([PyFloat]); a finite float is modelled by the rational it denotes,
      the rounding to binary64 is not modelled.  The times of the rows
      that the reductions read are rationals.
    - A [try: ... except: pass] block is a computation in [option]:
      [None] is "an exception was raised and swallowed".
    - The operating system (clock, child process, file system) is an
      explicit argument: the functions are pure in that argument. *)

From Stdlib Require Import List String Ascii Bool Arith ZArith QArith Lia.
From Stdlib Require Import DecimalString DecimalPos Permutation Sorted.
Import ListNotations.

Local Open Scope string_scope.
Local Open Scope Z_scope.

(** ** Python string primitives used by the scripts *)

Module PyStr.

(** The line feed, ['\n']. *)
Definition LF : ascii := "010"%char.

Definition ascii_code (c : ascii) : nat := nat_of_ascii c.

(** [str.isspace] on one ASCII character: TAB, LF, VT, FF, CR, the four
    separators 28..31 and the space. *)
Definition is_space (c : ascii) : bool :=
  let n := ascii_code c in
  ((9 <=? n) && (n <=? 13) || (28 <=? n) && (n <=? 32))%nat.

Definition is_upper (c : ascii) : bool :=
  let n := ascii_code c in ((65 <=? n) && (n <=? 90))%nat.

Definition is_digit (c : ascii) : bool :=
  let n := ascii_code c in ((48 <=? n) && (n <=? 57))%nat.

Definition digit_val (c : ascii) : Z := Z.of_nat (ascii_code c - 48).

Definition lower_char (c : ascii) : ascii :=
  if is_upper c then ascii_of_nat (ascii_code c + 32) else c.

(** [s.lower()] *)
Fixpoint lower (s : string) : string :=
  match s with
  | EmptyString => EmptyString
  | String c s' => String (lower_char c) (lower s')
  end.

(** [sub in s] *)
Fixpoint contains (sub s : string) : bool :=
  prefix sub s ||
  match s with
  | EmptyString => false
  | String _ s' => contains sub s'
  end.

(** [s.count(sub)]: occurrences counted from the left without overlap.
    [skip] is the number of characters still covered by the occurrence
    found last. *)
Fixpoint count_from (sub : string) (skip : nat) (s : string) : Z :=
  match s with
  | EmptyString => if prefix sub EmptyString then 1 else 0
  | String _ s' =>
      match skip with
      | S k => count_from sub k s'
      | O => if prefix sub s
             then 1 + count_from sub (String.length sub - 1) s'
             else count_from sub 0 s'
      end
  end.

Definition count (sub s : string) : Z := count_from sub 0 s.

(** [s.replace(old, new)] for a non-empty [old]: every occurrence from
    the left, without overlap. *)
Fixpoint replace_from (old new : string) (skip : nat) (s : string) : string :=
  match s with
  | EmptyString => EmptyString
  | String c s' =>
      match skip with
      | S k => replace_from old new k s'
      | O => if prefix old s
             then new ++ replace_from old new (String.length old - 1) s'
             else String c (replace_from old new 0 s')
      end
  end.

Definition replace (old new s : string) : string := replace_from old new 0 s.

(** [s.split(sep)] for a one-character separator; the result is never
    empty. *)
Fixpoint split (sep : ascii) (s : string) : list string :=
  match s with
  | EmptyString => [EmptyString]
  | String c s' =>
      if Ascii.eqb c sep then EmptyString :: split sep s'
      else match split sep s' with
           | h :: t => String c h :: t
           | [] => [String c EmptyString]
           end
  end.

Fixpoint lstrip (s : string) : string :=
  match s with
  | EmptyString => EmptyString
  | String c s' => if is_space c then lstrip s' else s
  end.

Fixpoint rstrip (s : string) : string :=
  match s with
  | EmptyString => EmptyString
  | String c s' =>
      match rstrip s' with
      | EmptyString => if is_space c then EmptyString else String c EmptyString
      | r => String c r
      end
  end.

(** [s.strip()] *)
Definition strip (s : string) : string := rstrip (lstrip s).

(** A digit part: decimal digits, single underscores allowed between
    two digits.  [acc] is the value read so far, [n] the number of
    digits read so far, [after_digit] tells whether the previous
    character was a digit. *)
Fixpoint digitpart (acc : Z) (n : nat) (after_digit : bool) (s : string)
  : option (Z * nat * string) :=
  match s with
  | EmptyString => if after_digit then Some (acc, n, EmptyString) else None
  | String c s' =>
      if is_digit c then digitpart (10 * acc + digit_val c) (S n) true s'
      else if Ascii.eqb c "_" then
             if after_digit then
               match s' with
               | String d _ => if is_digit d then digitpart acc n false s' else None
               | EmptyString => None
               end
             else None
      else if after_digit then Some (acc, n, s) else None
  end.

(** An optional sign: the factor and the rest. *)
Definition sign (s : string) : Z * string :=
  match s with
  | String "+" s' => (1, s')
  | String "-" s' => (-1, s')
  | _ => (1, s)
  end.

(** [int(s)] in base ten; [None] stands for [ValueError]. *)
Definition py_int (s : string) : option Z :=
  let (sg, body) := sign (strip s) in
  match digitpart 0 0 false body with
  | Some (v, _, EmptyString) => Some (sg * v)
  | _ => None
  end.

(** The exponent of a float literal: [e] or [E], a sign, a digit part. *)
Definition exponent (s : string) : option Z :=
  match s with
  | EmptyString => Some 0
  | String c s' =>
      if Ascii.eqb (lower_char c) "e" then
        let (sg, body) := sign s' in
        match digitpart 0 0 false body with
        | Some (v, _, EmptyString) => Some (sg * v)
        | _ => None
        end
      else None
  end.

(** [m * 10 ^ e] as a rational. *)
Definition scale10 (m e : Z) : Q :=
  if 0 <=? e then inject_Z (m * 10 ^ e)
  else inject_Z m / inject_Z (10 ^ (- e)).

(** A [float]: a finite number, plus or minus infinity, or NaN. *)
Inductive PyFloat :=
| Finite (q : Q)
| Infinite (negative : bool)
| NaN.

(** The least magnitude that is rounded to an infinity: half way between
    the greatest binary64 number and [2 ^ 1024]. *)
Definition overflow_bound : Q := inject_Z (2 ^ 1024 - 2 ^ 970).

(** The float of a decimal literal of value [q]. *)
Definition to_float (q : Q) : PyFloat :=
  if Qle_bool overflow_bound q then Infinite false
  else if Qle_bool q (- overflow_bound) then Infinite true
  else Finite q.

(** The value of a decimal literal after its sign: digits with an
    optional fraction, optional exponent. *)
Definition decimal (sg : Z) (body : string) : option Q :=
  let finish (m : Z) (frac : nat) (rest : string) : option Q :=
    match exponent rest with
    | Some e => Some (scale10 (sg * m) (e - Z.of_nat frac))
    | None => None
    end in
  match body with
  | String "." s' =>
      match digitpart 0 0 false s' with
      | Some (m, k, rest) => finish m k rest
      | None => None
      end
  | _ =>
      match digitpart 0 0 false body with
      | Some (m, _, String "." rest) =>
          match rest with
          | String d _ =>
              if is_digit d then
                match digitpart m 0 false rest with
                | Some (m', k, rest') => finish m' k rest'
                | None => None
                end
              else finish m 0%nat rest
          | EmptyString => finish m 0%nat rest
          end
      | Some (m, _, rest) => finish m 0%nat rest
      | None => None
      end
  end.

(** [float(s)]: blanks around, a sign, then [inf], [infinity] or [nan] in
    any letter case, or a decimal literal.  [None] stands for
    [ValueError]. *)
Definition py_float (s : string) : option PyFloat :=
  let (sg, body) := sign (strip s) in
  let word := lower body in
  if String.eqb word "inf" || String.eqb word "infinity" then
    Some (Infinite (sg <? 0))
  else if String.eqb word "nan" then Some NaN
  else option_map to_float (decimal sg body).

End PyStr.

Import PyStr.

(** ** Python list, dictionary and number primitives used by the scripts *)

Module PyList.

Local Open Scope Q_scope.

(** [x < y] on floats. *)
Definition Qlt_bool (x y : Q) : bool := negb (Qle_bool y x).

(** [min(l, key=key)] on a non-empty list: the running best is replaced
    only by an element whose key is strictly smaller.  [None] stands
    for the [ValueError] of an empty argument. *)
Definition py_min {A} (key : A -> Q) (l : list A) : option A :=
  match l with
  | [] => None
  | x :: l' =>
      Some (fold_left
              (fun best y => if Qlt_bool (key y) (key best) then y else best)
              l' x)
  end.

(** [sorted(l, key=...)], a stable sort; [lt a b] is [key(a) < key(b)]. *)
Fixpoint insert_by {A} (lt : A -> A -> bool) (x : A) (l : list A) : list A :=
  match l with
  | [] => [x]
  | y :: l' => if lt y x then y :: insert_by lt x l' else x :: l
  end.

Definition sorted {A} (lt : A -> A -> bool) (l : list A) : list A :=
  fold_right (insert_by lt) [] l.

(** [sorted(set(l))] on integers. *)
Definition sorted_set (l : list Z) : list Z :=
  sorted Z.ltb (nodup Z.eq_dec l).

(** [sum(l)] *)
Definition sum (l : list Q) : Q := fold_left Qplus l 0.

(** [sum(l) / len(l)], also [np.mean(l)], on a non-empty list. *)
Definition mean (l : list Q) : Q :=
  sum l / inject_Z (Z.of_nat (List.length l)).

(** A [dict] with string keys: the entries in insertion order. *)
Definition dict (V : Type) : Type := list (string * V).

(** [d[k]]; [None] stands for [KeyError]. *)
Fixpoint dict_get {V} (k : string) (d : dict V) : option V :=
  match d with
  | [] => None
  | (k', v) :: d' => if String.eqb k' k then Some v else dict_get k d'
  end.

(** [k in d] *)
Definition dict_mem {V} (k : string) (d : dict V) : bool :=
  match dict_get k d with Some _ => true | None => false end.

(** [d[k] = v]: a present key keeps its place, a new key goes last. *)
Fixpoint dict_set {V} (k : string) (v : V) (d : dict V) : dict V :=
  match d with
  | [] => [(k, v)]
  | (k', v') :: d' =>
      if String.eqb k' k then (k', v) :: d' else (k', v') :: dict_set k v d'
  end.

(** In-place change of the entry of a present key [k]. *)
Fixpoint dict_update {V} (k : string) (f : V -> V) (d : dict V) : dict V :=
  match d with
  | [] => []
  | (k', v) :: d' =>
      if String.eqb k' k then (k', f v) :: d' else (k', v) :: dict_update k f d'
  end.

(** [a] does not come after [b] in an ascending order: [not (b < a)]. *)
Definition not_after {A} (lt : A -> A -> bool) (a b : A) : Prop :=
  lt b a = false.

End PyList.

Import PyList.

(** ** The data model shared by the two scripts *)

Module Data.

(** The values of the [status] entry and of the [Status] column:
    ['UNKNOWN'], ['SAT'], ['UNSAT'], ['TIMEOUT'], ['ERROR']. *)
Inductive RunStatus := Unknown | Sat | Unsat | Timeout | Error.

Definition status_eqb (a b : RunStatus) : bool :=
  match a, b with
  | Unknown, Unknown | Sat, Sat | Unsat, Unsat
  | Timeout, Timeout | Error, Error => true
  | _, _ => false
  end.

(** The nine columns of the result file; [T] is the type of the time.
    An optional column is [None] when its cell is the empty string. *)
Record Cells (T : Type) := mkRow {
  Model : string;
  Description : string;
  N : Z;
  Status : RunStatus;
  Time : option T;
  Nodes : option Z;
  Failures : option Z;
  Propagations : option Z;
  Solutions : Z
}.

Arguments mkRow {T}.
Arguments Model {T}.
Arguments Description {T}.
Arguments N {T}.
Arguments Status {T}.
Arguments Time {T}.
Arguments Nodes {T}.
Arguments Failures {T}.
Arguments Propagations {T}.
Arguments Solutions {T}.

(** One row of the result file as [csv.DictReader] gives it back.  A
    numeric cell is held as the number it denotes, so that
    [r['N'] == str(n)] and [int(r['N']) == n] are both [N r =? n], and
    [float(r['Time(s)'])] is the content of [Time r], a real number. *)
Abbreviation Row := (Cells Q).

(** One row as it is handed to [csv.DictWriter]: the time is the float
    that the writer formats. *)
Abbreviation Written := (Cells PyFloat).

(** Truth value of a cell: a non-empty string. *)
Definition truthy {A} (cell : option A) : bool :=
  match cell with Some _ => true | None => false end.

End Data.

Import Data.

(** ** benchmark.py *)

Module Benchmark.

Definition TIMEOUT : Z := 300.

Definition N_VALUES : list Z := [8; 10; 12; 15; 20; 25; 30; 40; 50].

Definition MODELS : list (string * string) :=
  [ ("01_naive.mzn", "Naïf (contraintes binaires)");
    ("02_global.mzn", "Contraintes globales");
    ("03_ff_min.mzn", "First-Fail + Min");
    ("04_ff_max.mzn", "First-Fail + Max");
    ("05_ff_split.mzn", "First-Fail + Split");
    ("06_input_order.mzn", "Input Order");
    ("07_smallest.mzn", "Smallest");
    ("08_dom_w_deg.mzn", "Dom/Wdeg");
    ("09_symmetry_basic.mzn", "Symétrie basique");
    ("10_symmetry_advanced.mzn", "Symétrie avancée");
    ("11_redundant.mzn", "Contraintes redondantes");
    ("12_bounds.mzn", "Propagation bounds");
    ("13_random.mzn", "Random");
    ("14_combined_optimal.mzn", "Combiné optimal");
    ("15_max_regret.mzn", "Max Regret") ].

(** The dictionary [stats] built and returned by [run_minizinc]. *)
Record Stats := mkStats {
  status : RunStatus;
  time : option PyFloat;
  nodes : option Z;
  failures : option Z;
  propagations : option Z;
  solutions : Z
}.

Definition set_status (v : RunStatus) (st : Stats) : Stats :=
  mkStats v (time st) (nodes st) (failures st) (propagations st) (solutions st).
Definition set_time (v : PyFloat) (st : Stats) : Stats :=
  mkStats (status st) (Some v) (nodes st) (failures st) (propagations st) (solutions st).
Definition set_nodes (v : Z) (st : Stats) : Stats :=
  mkStats (status st) (time st) (Some v) (failures st) (propagations st) (solutions st).
Definition set_failures (v : Z) (st : Stats) : Stats :=
  mkStats (status st) (time st) (nodes st) (Some v) (propagations st) (solutions st).
Definition set_propagations (v : Z) (st : Stats) : Stats :=
  mkStats (status st) (time st) (nodes st) (failures st) (Some v) (solutions st).
Definition set_solutions (v : Z) (st : Stats) : Stats :=
  mkStats (status st) (time st) (nodes st) (failures st) (propagations st) v.

(** What [subprocess.run(cmd, capture_output=True, text=True,
    timeout=timeout)] does: it returns a completed process, raises
    [TimeoutExpired] after killing the child, or raises something
    else. *)
Inductive RunResult :=
| Completed (returncode : Z) (stdout stderr : string)
| TimeoutExpired
| OtherException.

(** One launch as the runner observes it: the two readings of
    [time.time()] around the call and what the call did.  [clock_end]
    is read only when the call returns. *)
Record Launch := mkLaunch {
  clock_start : Q;
  clock_end : Q;
  outcome : RunResult
}.

(** [try: stats[k] = conv(...) except: pass] *)
Definition try_set {A} (conv : option A) (set : A -> Stats -> Stats)
  (st : Stats) : Stats :=
  match conv with
  | Some v => set v st
  | None => st
  end.

(** [line.split('=')[1]]; [None] stands for [IndexError]. *)
Definition field (line : string) : option string :=
  nth_error (split "=" line) 1.

(** [int(line.split('=')[1].strip())] *)
Definition int_field (line : string) : option Z :=
  match field line with
  | Some tok => py_int (strip tok)
  | None => None
  end.

(** [float(line.split('=')[1].strip().replace('ms', ''))] *)
Definition float_field (line : string) : option PyFloat :=
  match field line with
  | Some tok => py_float (replace "ms" "" (strip tok))
  | None => None
  end.

(** The body of the loop over the lines of the captured output. *)
Definition scan_line (st : Stats) (line : string) : Stats :=
  if contains "nodes" (lower line) then
    try_set (int_field line) set_nodes st
  else if contains "failures" (lower line) || contains "fails" (lower line) then
    try_set (int_field line) set_failures st
  else if contains "propagations" (lower line)
          || contains "propagates" (lower line) then
    try_set (int_field line) set_propagations st
  else if contains "solveTime" line then
    try_set (float_field line) set_time st
  else st.

Definition scan (st : Stats) (lines : list string) : Stats :=
  fold_left scan_line lines st.

(** The marker of a solution in the output of the models. *)
Definition MARKER : string := "Q = ".

(** The status decided after the scan. *)
Definition classify (timeout : Z) (elapsed_time : Q)
  (returncode : Z) (stdout stderr : string) (stats : Stats) : Stats :=
  if (returncode =? 0) && contains MARKER stdout then
    set_solutions (count MARKER stdout) (set_status Sat stats)
  else if returncode =? 0 then
    set_status Unsat stats
  else if contains "TIMEOUT" stderr
          || Qle_bool (inject_Z timeout - 1) elapsed_time then
    set_status Timeout stats
  else
    set_status Error stats.

Definition run_minizinc (timeout : Z) (l : Launch) : Stats :=
  match outcome l with
  | Completed returncode stdout stderr =>
      let elapsed_time := (clock_end l - clock_start l)%Q in
      let stats := mkStats Unknown (Some (Finite elapsed_time)) None None None 0 in
      let stderr_lines := split LF stdout in
      let stats := scan stats stderr_lines in
      classify timeout elapsed_time returncode stdout stderr stats
  | TimeoutExpired =>
      mkStats Timeout (Some (Finite (inject_Z timeout))) None None None 0
  | OtherException =>
      mkStats Error None None None None 0
  end.

(** [str(n)] *)
Definition str (n : Z) : string := NilZero.string_of_int (Z.to_int n).

(** Paths, as pathlib writes them on a POSIX system.  The components
    of a text are its pieces between slashes, the empty ones and the
    single dots left out. *)
Definition components (s : string) : list string :=
  filter (fun x => negb (String.eqb x "" || String.eqb x "."))
         (split "/" s).

(** The root of a text: two leading slashes exactly are kept, any other
    number of them is one slash. *)
Definition root_of (s : string) : string :=
  if prefix "//" s && negb (prefix "///" s) then "//"
  else if prefix "/" s then "/"
  else "".

(** [str(path)] *)
Definition render (root : string) (parts : list string) : string :=
  match root, parts with
  | EmptyString, [] => "."
  | _, _ => root ++ String.concat "/" parts
  end.

(** [Path(base) / key]: a rooted [key] replaces [base]. *)
Definition joinpath (base key : string) : string :=
  if prefix "/" key then render (root_of key) (components key)
  else render (root_of base) (components base ++ components key).

Definition MODELS_DIR : string := "models".
Definition DATA_DIR : string := "data".

(** [MODELS_DIR / model_file] *)
Definition model_path_of (model_file : string) : string :=
  joinpath MODELS_DIR model_file.

(** [DATA_DIR / f"n{n}.dzn"] *)
Definition data_path_of (n : Z) : string :=
  joinpath DATA_DIR ("n" ++ str n ++ ".dzn").

(** The surroundings of one batch: which paths exist, and what happens
    when the solver is launched on a model file and a data file. *)
Record World := mkWorld {
  path_exists : string -> bool;
  launch : string -> string -> Launch
}.

(** The lines printed inside the loop. *)
Inductive Message :=
| ModelNotFound (model_file : string)
| DataNotFound (n : Z)
| Progress (current total : Z) (model_file : string) (n : Z) (st : RunStatus).

(** The state of the loop of [main]: the rows written (and flushed) so
    far, the console, the progress counter. *)
Record Session := mkSession {
  csv : list Written;
  console : list Message;
  current : Z
}.

(** The row written for one run. *)
Definition row_of (model_file description : string) (n : Z) (stats : Stats)
  : Written :=
  mkRow model_file description n (status stats) (time stats) (nodes stats)
        (failures stats) (propagations stats) (solutions stats).

(** The body of the inner loop, over the sizes. *)
Definition run_size (w : World) (total : Z) (model_file description : string)
  (s : Session) (n : Z) : Session :=
  let current := current s + 1 in
  let data_path := data_path_of n in
  if negb (path_exists w data_path) then
    mkSession (csv s) (console s ++ [DataNotFound n]) current
  else
    let stats := run_minizinc TIMEOUT (launch w (model_path_of model_file) data_path) in
    mkSession (csv s ++ [row_of model_file description n stats])
              (console s ++ [Progress current total model_file n (status stats)])
              current.

(** The body of the outer loop, over the models. *)
Definition run_model (w : World) (total : Z) (n_values : list Z)
  (s : Session) (m : string * string) : Session :=
  let (model_file, description) := m in
  if negb (path_exists w (model_path_of model_file)) then
    mkSession (csv s) (console s ++ [ModelNotFound model_file]) (current s)
  else
    fold_left (run_size w total model_file description) n_values s.

(** The two nested loops over a catalogue and a list of sizes. *)
Definition batch (w : World) (models : list (string * string))
  (n_values : list Z) : Session :=
  let total := Z.of_nat (List.length models) * Z.of_nat (List.length n_values) in
  fold_left (run_model w total n_values) models (mkSession [] [] 0).

(** [float(x['Time(s)'])] on a row whose cell is not empty. *)
Definition time_of (r : Row) : Q :=
  match Time r with Some t => t | None => 0%Q end.

(** The rows a reduction looks at: solved, with a time. *)
Definition solved_timed (r : Row) : bool :=
  status_eqb (Status r) Sat && truthy (Time r).

(** [generate_summary], first loop: for each configured size the local
    [best], or [None] for "Aucune solution trouvee". *)
Definition best_for_size (rows : list Row) (n : Z) : option Row :=
  let n_rows := filter (fun r => (N r =? n) && solved_timed r) rows in
  py_min time_of n_rows.

(** [generate_summary], second loop: the dictionary [model_stats]. *)
Definition add_model_stats (rows : list Row)
  (model_stats : dict (Q * Z * Z)) (m : string * string) : dict (Q * Z * Z) :=
  let (model_file, description) := m in
  let model_rows :=
    filter (fun r => String.eqb (Model r) model_file && solved_timed r) rows in
  match model_rows with
  | [] => model_stats
  | _ :: _ =>
      let avg_time := mean (map time_of model_rows) in
      let solved := Z.of_nat (List.length model_rows) in
      let total :=
        Z.of_nat (List.length (filter (fun r => String.eqb (Model r) model_file) rows)) in
      dict_set description (avg_time, solved, total) model_stats
  end.

(** What [generate_summary] prints: one line per configured size, then
    one line per entry of [sorted_models]. *)
Record Summary := mkSummary {
  best_lines : list (Z * option Row);
  model_lines : list (string * (Q * Z * Z))
}.

Definition model_stats (rows : list Row) : dict (Q * Z * Z) :=
  fold_left (add_model_stats rows) MODELS [].

(** [sorted(model_stats.items(), key=lambda x: x[1][0])] *)
Definition sorted_models (rows : list Row) : list (string * (Q * Z * Z)) :=
  sorted (fun a b => Qlt_bool (fst (fst (snd a))) (fst (fst (snd b))))
         (model_stats rows).

Definition generate_summary (rows : list Row) : Summary :=
  mkSummary (map (fun n => (n, best_for_size rows n)) N_VALUES)
            (sorted_models rows).

(** The integer nearest to [q], the even one of two nearest. *)
Definition round_half_even (q : Q) : Z :=
  let n := Qnum q in
  let d := Z.pos (Qden q) in
  let f := n / d in
  match 2 * (n mod d) ?= d with
  | Lt => f
  | Gt => f + 1
  | Eq => if Z.even f then f else f + 1
  end.

(** [float(f"{q:.8f}")]: the number read back from a cell written with
    eight decimals. *)
Definition round8 (q : Q) : Q :=
  Qmake (round_half_even (q * inject_Z (10 ^ 8))) (10 ^ 8)%positive.

(** A written row as [csv.DictReader] gives it back.  A time written as
    [inf] or [nan] is no real number: such a row is outside the rows of
    the reductions ([None]). *)
Definition read_row (r : Written) : option Row :=
  match Time r with
  | Some (Finite q) =>
      Some (mkRow (Model r) (Description r) (N r) (Status r) (Some (round8 q))
                  (Nodes r) (Failures r) (Propagations r) (Solutions r))
  | Some _ => None
  | None =>
      Some (mkRow (Model r) (Description r) (N r) (Status r) None
                  (Nodes r) (Failures r) (Propagations r) (Solutions r))
  end.

(** The rows of a written file, when each of them has a real time or
    none. *)
Fixpoint read_rows (l : list Written) : option (list Row) :=
  match l with
  | [] => Some []
  | r :: l' =>
      match read_row r, read_rows l' with
      | Some x, Some xs => Some (x :: xs)
      | _, _ => None
      end
  end.

(** [main]: the batch over the catalogue, then the summary of the file
    just written, read back.  The summary is modelled when the file holds
    real times only. *)
Definition main (w : World) : Session * option Summary :=
  let s := batch w MODELS N_VALUES in
  (s, option_map generate_summary (read_rows (csv s))).

End Benchmark.

Import Benchmark.

(** ** visualize.py: the two reductions *)

Module Visualize.

(** The rows a size contributes: [int(r['N']) == n], solved, timed. *)
Definition n_results (results : list Row) (n : Z) : list Row :=
  filter (fun r => (N r =? n) && solved_timed r) results.

(** The local [best] of the loops over the sizes, or [None] when
    [n_results] is empty. *)
Definition best_of (results : list Row) (n : Z) : option Row :=
  py_min time_of (n_results results n).

(** [s[:k]]: the first [k] characters.  A byte from 128 to 191 goes on
    with the character begun before it. *)
Fixpoint take_str (k : nat) (s : string) : string :=
  match s with
  | EmptyString => EmptyString
  | String c s' =>
      if (128 <=? ascii_code c)%nat && (ascii_code c <? 192)%nat then
        String c (take_str k s')
      else
        match k with
        | O => EmptyString
        | S k' => String c (take_str k' s')
        end
  end.

(** [plot_best_per_size]: the sizes, the labels and the heights of the
    bars. *)
Definition plot_best_per_size (results : list Row)
  : list Z * list string * list Q :=
  let n_values := sorted_set (map N results) in
  let best := map (best_of results) n_values in
  (n_values,
   map (fun b => match b with
                 | Some r => take_str 20 (Description r)
                 | None => "Aucun"
                 end) best,
   map (fun b => match b with
                 | Some r => time_of r
                 | None => 0%Q
                 end) best).

(** The second table of [generate_summary_table]: for each size present
    the best row, or [None] for "Aucune solution". *)
Definition best_table (results : list Row) : list (Z * option Row) :=
  map (fun n => (n, best_of results n)) (sorted_set (map N results)).

(** An entry of [models_data]. *)
Record ModelData := mkModelData {
  times : list Q;
  nodes : list Z;
  total : Z;
  solved : Z
}.

(** The body of the loop that fills [models_data]. *)
Definition count_row (d : ModelData) (row : Row) : ModelData :=
  let d := mkModelData (times d) (nodes d) (total d + 1) (solved d) in
  if status_eqb (Status row) Sat then
    let d := mkModelData (times d) (nodes d) (total d) (solved d + 1) in
    let d := match Time row with
             | Some t => mkModelData (times d ++ [t]) (nodes d) (total d) (solved d)
             | None => d
             end in
    match Nodes row with
    | Some k => mkModelData (times d) (nodes d ++ [k]) (total d) (solved d)
    | None => d
    end
  else d.

(** [{'times': [], 'nodes': [], 'total': 0, 'solved': 0}] *)
Definition empty_data : ModelData := mkModelData [] [] 0 0.

Definition add_row (models_data : dict ModelData) (row : Row) : dict ModelData :=
  let model := Description row in
  let models_data :=
    if dict_mem model models_data then models_data
    else dict_set model empty_data models_data in
  dict_update model (fun d => count_row d row) models_data.

(** The sort key: [np.mean(times)], or [float('inf')] ([None]) for an
    empty list. *)
Definition sort_key (e : string * ModelData) : option Q :=
  match times (snd e) with
  | [] => None
  | _ :: _ => Some (mean (times (snd e)))
  end.

(** [a < b] on keys, [None] being infinity. *)
Definition key_lt (a b : option Q) : bool :=
  match a, b with
  | Some x, Some y => Qlt_bool x y
  | Some _, None => true
  | None, _ => false
  end.

(** One line of the first table. *)
Record Line := mkLine {
  line_model : string;
  avg_time : Q;
  avg_nodes : Q;
  line_solved : Z;
  line_total : Z;
  rate : Q
}.

Definition line_of (e : string * ModelData) : Line :=
  let (model, data) := e in
  mkLine model
    (match times data with [] => 0%Q | _ :: _ => mean (times data) end)
    (match nodes data with [] => 0%Q | _ :: _ => mean (map inject_Z (nodes data)) end)
    (solved data) (total data)
    (inject_Z (100 * solved data) / inject_Z (total data))%Q.

Definition models_data (results : list Row) : dict ModelData :=
  fold_left add_row results [].

Definition sorted_models (results : list Row) : list (string * ModelData) :=
  sorted (fun a b => key_lt (sort_key a) (sort_key b)) (models_data results).

(** [generate_summary_table]: the lines of the two tables. *)
Definition generate_summary_table (results : list Row)
  : list Line * list (Z * option Row) :=
  (map line_of (sorted_models results), best_table results).

End Visualize.

(** ** visualize.py: the data of the three charts by model *)

Module Charts.

(** The loop of [plot_time_comparison] and of [plot_nodes_comparison]:
    the dictionary [models], from a description to its list of sizes and
    its list of values.  [cell] is the column the chart reads,
    [Time(s)] or [Nodes]. *)
Definition add_point {X} (cell : Row -> option X)
  (models : dict (list Z * list X)) (row : Row) : dict (list Z * list X) :=
  if status_eqb (Status row) Sat then
    match cell row with
    | Some x =>
        let model := Description row in
        let models :=
          if dict_mem model models then models
          else dict_set model ([], []) models in
        dict_update model (fun d => (fst d ++ [N row], snd d ++ [x])%list) models
    | None => models
    end
  else models.

(** [models] at the end of the loop of [plot_time_comparison]. *)
Definition time_series (results : list Row) : dict (list Z * list Q) :=
  fold_left (add_point Time) results [].

(** [models] at the end of the loop of [plot_nodes_comparison]. *)
Definition nodes_series (results : list Row) : dict (list Z * list Z) :=
  fold_left (add_point Nodes) results [].

(** An entry of [models_stats] in [plot_success_rate]. *)
Record Tally := mkTally {
  total : Z;
  solved : Z
}.

Definition tally_row (t : Tally) (row : Row) : Tally :=
  let t := mkTally (total t + 1) (solved t) in
  if status_eqb (Status row) Sat then mkTally (total t) (solved t + 1) else t.

Definition add_tally (models_stats : dict Tally) (row : Row) : dict Tally :=
  let model := Description row in
  let models_stats :=
    if dict_mem model models_stats then models_stats
    else dict_set model (mkTally 0 0) models_stats in
  dict_update model (fun t => tally_row t row) models_stats.

Definition models_stats (results : list Row) : dict Tally :=
  fold_left add_tally results [].

(** The sort key [x[1]['solved']/x[1]['total']]. *)
Definition ratio (e : string * Tally) : Q :=
  (inject_Z (solved (snd e)) / inject_Z (total (snd e)))%Q.

(** [sorted(models_stats.items(), key=..., reverse=True)]: descending,
    entries of equal key in their first order. *)
Definition ranked (results : list Row) : list (string * Tally) :=
  sorted (fun a b => Qlt_bool (ratio b) (ratio a)) (models_stats results).

(** [100 * stats['solved'] / stats['total']] *)
Definition percent (e : string * Tally) : Q :=
  (inject_Z (100 * solved (snd e)) / inject_Z (total (snd e)))%Q.

(** [plot_success_rate]: the names and the lengths of the bars. *)
Definition plot_success_rate (results : list Row) : list string * list Q :=
  (map (fun e => Visualize.take_str 25 (fst e)) (ranked results),
   map percent (ranked results)).

End Charts.

(** ** Words of the specification, for comparison with the code *)

Module Spec.

(** The number of places of [s] where [sub] occurs. *)
Fixpoint occurrences (sub s : string) : Z :=
  (if prefix sub s then 1 else 0) +
  match s with
  | EmptyString => 0
  | String _ s' => occurrences sub s'
  end.

(** The run requests of a batch: the catalogue crossed with the list
    of sizes, in the order of the two loops. *)
Definition run_specs (models : list (string * string)) (n_values : list Z)
  : list (string * string * Z) :=
  list_prod models n_values.

(** A run request is skipped when its model file or its data file is
    absent. *)
Definition skipped (w : World) (rs : string * string * Z) : bool :=
  let '(model_file, _, n) := rs in
  negb (path_exists w (model_path_of model_file))
  || negb (path_exists w (data_path_of n)).

(** The launch of a run request, and the record of its outcome. *)
Definition launch_of (w : World) (rs : string * string * Z) : Launch :=
  let '(model_file, _, n) := rs in
  launch w (model_path_of model_file) (data_path_of n).

Definition record_of (w : World) (rs : string * string * Z) : Written :=
  let '(model_file, description, n) := rs in
  row_of model_file description n (run_minizinc TIMEOUT (launch_of w rs)).

(** The keys of the statistics scan. *)
Inductive Key := KNodes | KFailures | KPropagations | KSolveTime.

(** The key a line is read for: the first one of the table that the
    line holds, the three counters in any letter case, [solveTime] as
    it is spelled. *)
Definition key_of (line : string) : option Key :=
  if contains "nodes" (lower line) then Some KNodes
  else if contains "failures" (lower line) || contains "fails" (lower line)
  then Some KFailures
  else if contains "propagations" (lower line)
          || contains "propagates" (lower line)
  then Some KPropagations
  else if contains "solveTime" line then Some KSolveTime
  else None.

(** The text after the first [sep] of [s], when [s] holds one. *)
Fixpoint after_first (sep : ascii) (s : string) : option string :=
  match s with
  | EmptyString => None
  | String c s' => if Ascii.eqb c sep then Some s' else after_first sep s'
  end.

(** The text before the first [sep] of [s], all of [s] without one. *)
Fixpoint before_first (sep : ascii) (s : string) : string :=
  match s with
  | EmptyString => EmptyString
  | String c s' =>
      if Ascii.eqb c sep then EmptyString else String c (before_first sep s')
  end.

(** The token of a line: what stands after its first [=], up to the
    next [=] or to the end of the line. *)
Definition value_token (line : string) : option string :=
  option_map (before_first "=") (after_first "=" line).

(** The value of a counter line: its token without the blanks around
    it, read as an integer. *)
Definition counter_value (line : string) : option Z :=
  match value_token line with
  | Some tok => py_int (strip tok)
  | None => None
  end.

(** The value of a [solveTime] line: its token without the blanks
    around it and without any [ms], read as a number. *)
Definition time_value (line : string) : option PyFloat :=
  match value_token line with
  | Some tok => py_float (replace "ms" "" (strip tok))
  | None => None
  end.

(** A line that holds a key and no readable value for it. *)
Definition malformed (line : string) : bool :=
  match key_of line with
  | Some KSolveTime => negb (truthy (time_value line))
  | Some _ => negb (truthy (counter_value line))
  | None => false
  end.

(** The entry of a counter key in the statistics. *)
Definition counter (k : Key) (st : Stats) : option Z :=
  match k with
  | KNodes => nodes st
  | KFailures => failures st
  | KPropagations => propagations st
  | KSolveTime => None
  end.

(** The lines on which [scan_line] reaches its [solveTime] branch. *)
Definition time_line (line : string) : bool :=
  match key_of line with
  | Some KSolveTime => true
  | _ => false
  end.

(** The times the child printed, in the order of the lines that carry
    them. *)
Definition child_times (lines : list string) : list PyFloat :=
  flat_map (fun line =>
              if time_line line then
                match float_field line with Some t => [t] | None => [] end
              else []) lines.

(** No occurrence of the marker starts in the next [k] places. *)
Fixpoint marker_free (k : nat) (s : string) : Prop :=
  match k with
  | O => True
  | S k' =>
      prefix MARKER s = false /\
      match s with
      | EmptyString => True
      | String _ s' => marker_free k' s'
      end
  end.

(** [b] is the first least element of [l] for [key]. *)
Definition first_least {A} (key : A -> Q) (l : list A) (b : A) : Prop :=
  exists pre post,
    l = (pre ++ b :: post)%list
    /\ (forall x, In x pre -> (key b < key x)%Q)
    /\ (forall x, In x post -> (key b <= key x)%Q).

(** The rows of a model, by description. *)
Definition rows_of (k : string) (rows : list Row) : list Row :=
  filter (fun r => String.eqb (Description r) k) rows.

Definition is_sat (r : Row) : bool := status_eqb (Status r) Sat.

(** The solved and timed rows of a model, by file name. *)
Definition solved_rows_of (m : string) (rows : list Row) : list Row :=
  filter (fun r => String.eqb (Model r) m && solved_timed r) rows.

End Spec.

Import Spec.

(** ** Further notions, for the properties of the rest of the code *)

Module Notions.

Definition key_eqb (a b : Key) : bool :=
  match a, b with
  | KNodes, KNodes | KFailures, KFailures
  | KPropagations, KPropagations | KSolveTime, KSolveTime => true
  | _, _ => false
  end.

(** The values read for a counter key, in the order of the lines that
    carry them. *)
Definition counter_values (k : Key) (lines : list string) : list Z :=
  flat_map (fun line =>
              match key_of line, counter_value line with
              | Some k', Some v => if key_eqb k k' then [v] else []
              | _, _ => []
              end) lines.

(** The sum of a list of integers. *)
Definition sum_Z (l : list Z) : Z := fold_right Z.add 0 l.

(** The points a chart has for a description: the size and the value of
    each solved row of this description whose cell is not empty, in the
    order of the file. *)
Definition points {X} (cell : Row -> option X) (k : string) (rows : list Row)
  : list (Z * X) :=
  flat_map (fun r =>
              if String.eqb (Description r) k && is_sat r then
                match cell r with Some x => [(N r, x)] | None => [] end
              else []) rows.

(** The number of models of a catalogue whose file is present. *)
Definition present_models (w : World) (models : list (string * string)) : nat :=
  List.length (filter (fun m => path_exists w (model_path_of (fst m))) models).

(** The values of a line of the quick summary for a model file. *)
Definition model_values (rows : list Row) (m : string) : Q * Z * Z :=
  (mean (map time_of (solved_rows_of m rows)),
   Z.of_nat (List.length (solved_rows_of m rows)),
   Z.of_nat (List.length (filter (fun r => String.eqb (Model r) m) rows))).

(** The progress lines of a session are numbered from 1 to its counter
    and all show the same total. *)
Definition progress_bounded (total : Z) (s : Session) : Prop :=
  0 <= current s
  /\ forall c t m n st,
       In (Progress c t m n st) (console s) -> 1 <= c <= current s /\ t = total.

(** The sum of an integer quantity over the entries of a dictionary. *)
Definition dict_sum {V} (g : V -> Z) (d : dict V) : Z :=
  sum_Z (map (fun e => g (snd e)) d).

(** The same change applied to every value of a dictionary. *)
Definition dict_map {V W} (p : V -> W) (d : dict V) : dict W :=
  map (fun e => (fst e, p (snd e))) d.

(** The two counts that [plot_success_rate] keeps, read off an entry of
    the table by model. *)
Definition tally_of (v : Visualize.ModelData) : Charts.Tally :=
  Charts.mkTally (Visualize.total v) (Visualize.solved v).

(** The two lists of a series, from its points. *)
Definition series_of {X} (l : list (Z * X)) : option (list Z * list X) :=
  match l with
  | [] => None
  | _ :: _ => Some (map fst l, map snd l)
  end.

(** The value of a missing series: two empty lists. *)
Definition or_empty {X} (o : option (list Z * list X)) : list Z * list X :=
  match o with Some v => v | None => ([], []) end.

(** A series with more points put after it. *)
Definition extend {X} (o : option (list Z * list X)) (l : list (Z * X))
  : option (list Z * list X) :=
  match l with
  | [] => o
  | _ :: _ => Some ((fst (or_empty o) ++ map fst l)%list,
                    (snd (or_empty o) ++ map snd l)%list)
  end.

(** The integer written by a decimal numeral after the digits that gave
    [acc]. *)
Fixpoint uint_value (d : Decimal.uint) (acc : Z) : Z :=
  match d with
  | Decimal.Nil => acc
  | Decimal.D0 l => uint_value l (10 * acc + 0)
  | Decimal.D1 l => uint_value l (10 * acc + 1)
  | Decimal.D2 l => uint_value l (10 * acc + 2)
  | Decimal.D3 l => uint_value l (10 * acc + 3)
  | Decimal.D4 l => uint_value l (10 * acc + 4)
  | Decimal.D5 l => uint_value l (10 * acc + 5)
  | Decimal.D6 l => uint_value l (10 * acc + 6)
  | Decimal.D7 l => uint_value l (10 * acc + 7)
  | Decimal.D8 l => uint_value l (10 * acc + 8)
  | Decimal.D9 l => uint_value l (10 * acc + 9)
  end.

(** A text without any slash. *)
Fixpoint slashless (s : string) : bool :=
  match s with
  | EmptyString => true
  | String c s' => negb (Ascii.eqb c "/") && slashless s'
  end.

(** A text without any blank character. *)
Fixpoint spaceless (s : string) : bool :=
  match s with
  | EmptyString => true
  | String c s' => negb (is_space c) && spaceless s'
  end.

End Notions.

Import Notions.

(** ** Worlds and result files used as examples *)

Module Examples.

(** A world where every file is present and every child is killed at the
    deadline. *)
Definition all_killed : World :=
  mkWorld (fun _ => true) (fun _ _ => mkLaunch 0 300 TimeoutExpired).

(** A world without the data file of size 12 and without the model file
    [13_random.mzn]. *)
Definition two_missing : World :=
  mkWorld (fun p => negb (String.eqb p "data/n12.dzn"
                          || String.eqb p "models/13_random.mzn"))
          (fun _ _ => mkLaunch 0 1 (Completed 0 "Q = [1]" "")).

(** Three solved records of size 8 with the times 1.0, 0.5 and 0.8, a
    fourth one that ties with the second, and a timeout. *)
Definition scenario_c : list Row :=
  [ mkRow "01_naive.mzn" "A" 8 Sat (Some 1.0%Q) (Some 120) (Some 30) None 1;
    mkRow "02_global.mzn" "B" 8 Sat (Some 0.5%Q) None None None 1;
    mkRow "03_ff_min.mzn" "C" 8 Sat (Some 0.8%Q) None None None 1;
    mkRow "04_ff_max.mzn" "D" 8 Sat (Some 0.50%Q) None None None 2;
    mkRow "05_ff_split.mzn" "E" 10 Timeout (Some 300%Q) None None None 0 ].

(** One model with two solved runs and an error, one model with a
    timeout only. *)
Definition scenario_d : list Row :=
  [ mkRow "01_naive.mzn" "Naïf (contraintes binaires)" 8 Sat (Some 1.0%Q) None None None 1;
    mkRow "02_global.mzn" "Contraintes globales" 8 Timeout (Some 300%Q) None None None 0;
    mkRow "01_naive.mzn" "Naïf (contraintes binaires)" 10 Sat (Some 3.0%Q) None None None 1;
    mkRow "01_naive.mzn" "Naïf (contraintes binaires)" 12 Error None None None None 0 ].

(** The rows read back from the file of the batch in [all_killed]. *)
Definition all_killed_rows : list Row :=
  match read_rows (csv (batch all_killed MODELS N_VALUES)) with
  | Some rows => rows
  | None => []
  end.

End Examples.

Import Examples.

(** * Properties *)

Local Open Scope list_scope.

(** ** Facts on the string primitives *)

(** [float] on the texts that are not decimal numbers, and on a decimal
    number too large for a float. *)
Example py_float_special_values :
  py_float "inf" = Some (Infinite false)
  /\ py_float " -Infinity " = Some (Infinite true)
  /\ py_float "NaN" = Some NaN
  /\ py_float "1e400" = Some (Infinite false)
  /\ py_float "in" = None.
Proof. vm_compute. repeat split. Qed.

Lemma prefix_cons_inv (a b : ascii) (s1 s2 : string) :
  prefix (String a s1) (String b s2) = true -> a = b /\ prefix s1 s2 = true.
Proof.
  simpl. destruct (ascii_dec a b) as [e | ne]; [auto | discriminate].
Qed.

Lemma count_from_nonneg (sub : string) (s : string) :
  forall k, 0 <= count_from sub k s.
Proof.
  induction s as [| c s IH]; intros k; cbn [count_from].
  - destruct (prefix sub ""); lia.
  - destruct k as [| k]; [| apply IH].
    destruct (prefix sub (String c s)); [| apply IH].
    specialize (IH (String.length sub - 1)%nat). lia.
Qed.

Lemma contains_count_pos (sub s : string) :
  contains sub s = true -> 1 <= count sub s.
Proof.
  unfold count. induction s as [| c s IH]; intros H.
  - simpl in *. rewrite orb_false_r in H. rewrite H. lia.
  - cbn [contains] in H. cbn [count_from].
    destruct (prefix sub (String c s)) eqn:P.
    + pose proof (count_from_nonneg sub s (String.length sub - 1)). lia.
    + simpl in H. auto.
Qed.

Lemma not_contains_count_zero (sub s : string) :
  contains sub s = false -> count sub s = 0.
Proof.
  unfold count. induction s as [| c s IH]; intros H.
  - simpl in *. rewrite orb_false_r in H. now rewrite H.
  - cbn [contains] in H. apply orb_false_iff in H as [P H].
    cbn [count_from]. rewrite P. auto.
Qed.

Lemma marker_free_after_marker (c : ascii) (s : string) :
  prefix MARKER (String c s) = true -> marker_free 3 s.
Proof.
  unfold MARKER. intros H.
  apply prefix_cons_inv in H as [_ H].
  destruct s as [| c1 s]; [discriminate |].
  apply prefix_cons_inv in H as [<- H].
  destruct s as [| c2 s]; [discriminate |].
  apply prefix_cons_inv in H as [<- H].
  destruct s as [| c3 s]; [discriminate |].
  apply prefix_cons_inv in H as [<- _].
  simpl. repeat split.
Qed.

Lemma count_from_marker (s : string) :
  forall k, marker_free k s -> count_from MARKER k s = Spec.occurrences MARKER s.
Proof.
  induction s as [| c s IH]; intros k F.
  - reflexivity.
  - cbn [count_from Spec.occurrences].
    destruct k as [| k].
    + destruct (prefix MARKER (String c s)) eqn:P.
      * change (String.length MARKER - 1)%nat with 3%nat.
        rewrite (IH _ (marker_free_after_marker _ _ P)). reflexivity.
      * rewrite (IH 0%nat I). reflexivity.
    + destruct F as [P F]. rewrite P. rewrite (IH k F). reflexivity.
Qed.

Lemma count_marker (s : string) : count MARKER s = Spec.occurrences MARKER s.
Proof. apply (count_from_marker s 0%nat I). Qed.

(** ** Facts on the scan *)

Ltac scan_cases :=
  unfold scan_line, try_set;
  repeat match goal with
         | |- context [if ?b then _ else _] => destruct b
         | |- context [match ?o with Some _ => _ | None => _ end] => destruct o
         end.

Lemma scan_line_status (st : Stats) (line : string) :
  status (scan_line st line) = status st.
Proof. scan_cases; reflexivity. Qed.

Lemma scan_line_solutions (st : Stats) (line : string) :
  solutions (scan_line st line) = solutions st.
Proof. scan_cases; reflexivity. Qed.

Lemma scan_solutions (lines : list string) :
  forall st, solutions (scan st lines) = solutions st.
Proof.
  unfold scan. induction lines as [| line lines IH]; intros st; simpl.
  - reflexivity.
  - rewrite IH. apply scan_line_solutions.
Qed.

(** The status and the count chosen by [classify], by cases. *)
Lemma classify_cases (timeout : Z) (elapsed : Q) (rc : Z) (out err : string)
  (stats : Stats) :
  let st := classify timeout elapsed rc out err stats in
  (rc = 0 /\ contains MARKER out = true /\
   status st = Sat /\ solutions st = count MARKER out)
  \/ (rc = 0 /\ contains MARKER out = false /\
      status st = Unsat /\ solutions st = solutions stats)
  \/ (rc <> 0 /\
      (contains "TIMEOUT" err = true \/ (inject_Z timeout - 1 <= elapsed)%Q) /\
      status st = Timeout /\ solutions st = solutions stats)
  \/ (rc <> 0 /\ contains "TIMEOUT" err = false /\
      ~ (inject_Z timeout - 1 <= elapsed)%Q /\
      status st = Error /\ solutions st = solutions stats).
Proof.
  unfold classify.
  destruct (rc =? 0) eqn:R; [apply Z.eqb_eq in R | apply Z.eqb_neq in R].
  - destruct (contains MARKER out) eqn:M; simpl; auto 10.
  - simpl. destruct (contains "TIMEOUT" err) eqn:T; simpl.
    + right; right; left. auto.
    + destruct (Qle_bool (inject_Z timeout - 1) elapsed) eqn:E.
      * right; right; left. apply Qle_bool_iff in E. auto.
      * right; right; right. repeat split; auto.
        intros L. apply Qle_bool_iff in L. congruence.
Qed.

(** ** Facts on the batch loop *)

Section Batch.

Variable w : World.
Variable total : Z.

Lemma run_size_csv (model_file description : string) (n_values : list Z) :
  path_exists w (model_path_of model_file) = true ->
  forall s,
    csv (fold_left (run_size w total model_file description) n_values s)
    = csv s ++
      map (Spec.record_of w)
          (filter (fun rs => negb (Spec.skipped w rs))
                  (map (pair (model_file, description)) n_values)).
Proof.
  intros M. induction n_values as [| n ns IH]; intros s; simpl.
  - now rewrite app_nil_r.
  - rewrite IH. unfold run_size, Spec.skipped. rewrite M. simpl.
    destruct (path_exists w (data_path_of n)); simpl.
    + now rewrite <- app_assoc.
    + reflexivity.
Qed.

Lemma run_model_csv (n_values : list Z) (models : list (string * string)) :
  forall s,
    csv (fold_left (run_model w total n_values) models s)
    = csv s ++
      map (Spec.record_of w)
          (filter (fun rs => negb (Spec.skipped w rs))
                  (Spec.run_specs models n_values)).
Proof.
  unfold Spec.run_specs.
  induction models as [| [m d] ms IH]; intros s; simpl.
  - now rewrite app_nil_r.
  - rewrite IH, filter_app, map_app, app_assoc. f_equal.
    destruct (path_exists w (model_path_of m)) eqn:M; simpl.
    + now apply run_size_csv.
    + replace (filter _ (map _ n_values)) with (@nil (string * string * Z)).
      * simpl. now rewrite app_nil_r.
      * clear IH. induction n_values as [| n ns IHn]; simpl; auto.
        now rewrite M.
Qed.

Lemma run_size_console_mono (model_file description : string) (x : Message)
  (n_values : list Z) :
  forall s, In x (console s) ->
    In x (console (fold_left (run_size w total model_file description) n_values s)).
Proof.
  induction n_values as [| n ns IH]; intros s H; simpl; auto.
  apply IH. unfold run_size.
  destruct (negb (path_exists w (data_path_of n))); simpl;
    apply in_or_app; auto.
Qed.

Lemma run_model_console_mono (n_values : list Z) (x : Message)
  (models : list (string * string)) :
  forall s, In x (console s) ->
    In x (console (fold_left (run_model w total n_values) models s)).
Proof.
  induction models as [| [m d] ms IH]; intros s H; simpl; auto.
  apply IH.
  destruct (negb (path_exists w (model_path_of m))); simpl.
  - apply in_or_app; auto.
  - now apply run_size_console_mono.
Qed.

Lemma run_size_warns (model_file description : string) (n : Z)
  (n_values : list Z) :
  In n n_values -> path_exists w (data_path_of n) = false ->
  forall s,
    In (DataNotFound n)
       (console (fold_left (run_size w total model_file description) n_values s)).
Proof.
  intros I D. induction n_values as [| n' ns IH]; intros s; [easy |].
  simpl. destruct I as [-> | I]; [| now apply IH].
  apply run_size_console_mono. unfold run_size. rewrite D. simpl.
  apply in_or_app. right. now left.
Qed.

Lemma run_model_warns (n_values : list Z) (rs : string * string * Z)
  (models : list (string * string)) :
  In rs (Spec.run_specs models n_values) -> Spec.skipped w rs = true ->
  forall s,
    let out := console (fold_left (run_model w total n_values) models s) in
    In (ModelNotFound (fst (fst rs))) out \/ In (DataNotFound (snd rs)) out.
Proof.
  destruct rs as [[m d] n]. unfold Spec.run_specs. intros I K.
  apply in_prod_iff in I as [I In_n].
  induction models as [| [m' d'] ms IH]; intros s; [easy |].
  simpl. destruct I as [E | I]; [| now apply IH].
  injection E as -> ->.
  simpl in K. destruct (path_exists w (model_path_of m)) eqn:M; simpl in *.
  - right. apply run_model_console_mono. now apply run_size_warns;
      [| destruct (path_exists w (data_path_of n))].
  - left. apply run_model_console_mono. simpl.
    apply in_or_app. right. now left.
Qed.

End Batch.

Lemma batch_csv (w : World) (models : list (string * string)) (n_values : list Z) :
  csv (batch w models n_values)
  = map (Spec.record_of w)
        (filter (fun rs => negb (Spec.skipped w rs)) (Spec.run_specs models n_values)).
Proof. unfold batch. now rewrite run_model_csv. Qed.

Lemma filter_split_length {A} (f : A -> bool) (l : list A) :
  (List.length (filter (fun x => negb (f x)) l) + List.length (filter f l)
   = List.length l)%nat.
Proof.
  induction l as [| x l IH]; simpl; auto.
  destruct (f x); simpl; lia.
Qed.

Lemma main_rows (w : World) (r : Written) :
  In r (csv (fst (main w))) ->
  exists rs, In rs (Spec.run_specs MODELS N_VALUES)
             /\ Spec.skipped w rs = false /\ r = Spec.record_of w rs.
Proof.
  unfold main. cbn [fst]. rewrite batch_csv. intros H.
  apply in_map_iff in H as [rs [E H]]. apply filter_In in H as [I K].
  exists rs. repeat split; auto. now destruct (Spec.skipped w rs).
Qed.

(** ** Facts on the time entry *)

Lemma last_cons_default {A} (l : list A) :
  forall (a d d' : A), last (a :: l) d = last (a :: l) d'.
Proof.
  induction l as [| b l IH]; intros a d d'; [reflexivity |].
  change (last (b :: l) d = last (b :: l) d'). apply IH.
Qed.

Lemma last_app_default {A} (l1 l2 : list A) (d : A) :
  last (l1 ++ l2) d = last l2 (last l1 d).
Proof.
  revert d. induction l1 as [| x l1 IH]; intros d; [reflexivity |].
  destruct l1 as [| y l1].
  - destruct l2 as [| a l2]; [reflexivity |].
    change (last (a :: l2) d = last (a :: l2) x). apply last_cons_default.
  - change (last ((y :: l1) ++ l2) d = last l2 (last (y :: l1) d)). apply IH.
Qed.

Lemma scan_line_by_key (st : Stats) (line : string) :
  scan_line st line
  = match Spec.key_of line with
    | Some Spec.KNodes => try_set (int_field line) set_nodes st
    | Some Spec.KFailures => try_set (int_field line) set_failures st
    | Some Spec.KPropagations => try_set (int_field line) set_propagations st
    | Some Spec.KSolveTime => try_set (float_field line) set_time st
    | None => st
    end.
Proof.
  unfold scan_line, Spec.key_of.
  repeat match goal with |- context [if ?b then _ else _] => destruct b end;
    reflexivity.
Qed.

Lemma scan_line_time (st : Stats) (line : string) :
  time (scan_line st line)
  = last (map Some (Spec.child_times [line])) (time st).
Proof.
  rewrite scan_line_by_key. unfold Spec.child_times, Spec.time_line, try_set.
  cbn [flat_map].
  destruct (Spec.key_of line) as [[| | |] |]; try (destruct (int_field line));
    try (destruct (float_field line)); reflexivity.
Qed.

Lemma scan_time (lines : list string) :
  forall st,
    time (scan st lines) = last (map Some (Spec.child_times lines)) (time st).
Proof.
  unfold scan. induction lines as [| line lines IH]; intros st; [reflexivity |].
  cbn [fold_left]. rewrite IH, scan_line_time.
  replace (Spec.child_times (line :: lines))
    with (Spec.child_times [line] ++ Spec.child_times lines).
  - now rewrite map_app, last_app_default.
  - unfold Spec.child_times. cbn [flat_map]. now rewrite app_nil_r.
Qed.

Lemma time_line_needs_key (line : string) :
  contains "solveTime" line = false -> Spec.time_line line = false.
Proof.
  unfold Spec.time_line, Spec.key_of. intros ->.
  repeat match goal with |- context [if ?b then _ else _] => destruct b end;
    reflexivity.
Qed.

Lemma child_times_none (lines : list string) :
  (forall line, In line lines -> contains "solveTime" line = false) ->
  Spec.child_times lines = [].
Proof.
  induction lines as [| line lines IH]; intros H; [reflexivity |].
  unfold Spec.child_times in *. cbn [flat_map].
  rewrite IH by (intros; apply H; now right).
  now rewrite (time_line_needs_key line) by (apply H; now left).
Qed.

Lemma classify_time (timeout : Z) (elapsed : Q) (rc : Z) (out err : string)
  (stats : Stats) :
  time (classify timeout elapsed rc out err stats) = time stats.
Proof.
  unfold classify.
  repeat match goal with |- context [if ?b then _ else _] => destruct b end;
    reflexivity.
Qed.

(** ** The runner *)

(** C1, as amended.  After a normal completion the [time] entry is the
    last time printed by the child on a [solveTime] line, when there is
    one that reads as a number, and otherwise the difference of the two
    readings of the runner's clock; in particular it is that difference
    whenever no line of the captured output contains [solveTime].  After
    a forced termination it is the configured timeout. *)
Theorem elapsed_time_source (timeout : Z) (t0 t1 : Q) (rc : Z) (out err : string) :
  time (run_minizinc timeout (mkLaunch t0 t1 (Completed rc out err)))
  = last (map Some (Spec.child_times (split LF out)))
         (Some (Finite (t1 - t0)%Q))
  /\ ((forall line, In line (split LF out) -> contains "solveTime" line = false) ->
      time (run_minizinc timeout (mkLaunch t0 t1 (Completed rc out err)))
      = Some (Finite (t1 - t0)%Q))
  /\ time (run_minizinc timeout (mkLaunch t0 t1 TimeoutExpired))
     = Some (Finite (inject_Z timeout)).
Proof.
  assert (E : time (run_minizinc timeout (mkLaunch t0 t1 (Completed rc out err)))
              = last (map Some (Spec.child_times (split LF out)))
                     (Some (Finite (t1 - t0)%Q))).
  { unfold run_minizinc. cbn [outcome clock_end clock_start].
    now rewrite classify_time, scan_time. }
  repeat split; auto.
  intros H. rewrite E, (child_times_none _ H). reflexivity.
Qed.

Lemma elapsed_time_source_witness :
  time (run_minizinc 300 (mkLaunch 10 12 (Completed 0 "Q = [1; 3; 0; 2]" "")))
  = Some (Finite (12 - 10)%Q).
Proof.
  apply (elapsed_time_source 300 10 12 0 "Q = [1; 3; 0; 2]" "").
  intros line [<- | []]. reflexivity.
Defined.

(** C1 as stated fails: the child prints [solveTime=5], the runner's
    clock measures two seconds, and the returned time is five. *)
Lemma elapsed_time_overwritten_by_child :
  let l := mkLaunch 10 12 (Completed 0 "solveTime=5" "") in
  time (run_minizinc 300 l) = Some (Finite (inject_Z 5))
  /\ ~ (inject_Z 5 == clock_end l - clock_start l)%Q.
Proof.
  split; [vm_compute; reflexivity | intros H; vm_compute in H; discriminate].
Qed.

(** A child that prints an infinite or an undefined time: the entry
    holds what [float] reads. *)
Example time_entry_not_a_number :
  time (run_minizinc 300 (mkLaunch 10 12 (Completed 0 "solveTime=inf" "")))
  = Some (Infinite false)
  /\ time (run_minizinc 300 (mkLaunch 10 12 (Completed 0 "solveTime=nan" "")))
     = Some NaN.
Proof. vm_compute. split; reflexivity. Qed.

Lemma run_minizinc_completed (timeout : Z) (l : Launch) (rc : Z) (out err : string) :
  outcome l = Completed rc out err ->
  run_minizinc timeout l
  = classify timeout (clock_end l - clock_start l)%Q rc out err
      (scan (mkStats Unknown (Some (Finite (clock_end l - clock_start l)%Q))
                     None None None 0)
            (split LF out)).
Proof. unfold run_minizinc. now intros ->. Qed.

(** C3.  When the process exits with code 0, the status is [Sat] exactly
    when the captured output holds at least one solution marker, the
    number of solutions is then the number of occurrences of the marker
    in that output, and the status is [Unsat] when there is none; neither
    the measured time nor the timeout plays a part. *)
Theorem exit_zero_classified_by_marker
  (timeout : Z) (l : Launch) (out err : string) :
  outcome l = Completed 0 out err ->
  let st := run_minizinc timeout l in
  (status st = Sat <-> 1 <= Spec.occurrences MARKER out)
  /\ (status st = Sat -> solutions st = Spec.occurrences MARKER out)
  /\ (status st = Unsat <-> Spec.occurrences MARKER out = 0)
  /\ (contains MARKER out = true <-> 1 <= Spec.occurrences MARKER out).
Proof.
  intros H st. subst st. rewrite (run_minizinc_completed _ _ _ _ _ H).
  pose proof (contains_count_pos MARKER out) as P.
  pose proof (not_contains_count_zero MARKER out) as Z0.
  rewrite count_marker in P, Z0.
  destruct (classify_cases timeout (clock_end l - clock_start l)%Q 0 out err
              (scan (mkStats Unknown (Some (Finite (clock_end l - clock_start l)%Q))
                             None None None 0) (split LF out)))
    as [(_ & M & S & C) | [(_ & M & S & C) | [(R & _) | (R & _)]]];
    try congruence.
  - rewrite S, C, count_marker. specialize (P M).
    repeat split; auto; try congruence; try lia.
  - rewrite S, M. specialize (Z0 M).
    repeat split; auto; try congruence; try lia.
Qed.

Lemma exit_zero_classified_by_marker_witness :
  solutions (run_minizinc 5 (mkLaunch 0 7 (Completed 0 "Q = [1] Q = [2]" ""))) = 2.
Proof.
  pose proof (exit_zero_classified_by_marker 5
                (mkLaunch 0 7 (Completed 0 "Q = [1] Q = [2]" "")) _ _ eq_refl)
    as (S & C & _).
  rewrite C; [reflexivity | apply S; vm_compute; discriminate].
Defined.

(** C10.  When the process exits with code 0 the status is [Sat] or
    [Unsat], never [Timeout] nor [Error], whatever the measured time, the
    timeout and the captured error stream are. *)
Theorem exit_zero_never_timeout_nor_error
  (timeout : Z) (l : Launch) (out err : string) :
  outcome l = Completed 0 out err ->
  let st := run_minizinc timeout l in
  (status st = Sat \/ status st = Unsat)
  /\ status st <> Timeout /\ status st <> Error.
Proof.
  intros H st. subst st. rewrite (run_minizinc_completed _ _ _ _ _ H).
  destruct (classify_cases timeout (clock_end l - clock_start l)%Q 0 out err
              (scan (mkStats Unknown (Some (Finite (clock_end l - clock_start l)%Q))
                             None None None 0) (split LF out)))
    as [(_ & _ & S & _) | [(_ & _ & S & _) | [(R & _) | (R & _)]]];
    try congruence; rewrite S; repeat split; auto; discriminate.
Qed.

Lemma exit_zero_never_timeout_nor_error_witness :
  let l := mkLaunch 0 400 (Completed 0 "no solution" "TIMEOUT reached") in
  (inject_Z 300 - 1 <= clock_end l - clock_start l)%Q
  /\ contains "TIMEOUT" "TIMEOUT reached" = true
  /\ status (run_minizinc 300 l) <> Timeout.
Proof.
  split; [vm_compute; discriminate | split; [reflexivity |]].
  apply (exit_zero_never_timeout_nor_error 300
           (mkLaunch 0 400 (Completed 0 "no solution" "TIMEOUT reached"))
           "no solution" "TIMEOUT reached" eq_refl).
Defined.

Lemma run_minizinc_solutions (timeout : Z) (l : Launch) :
  let st := run_minizinc timeout l in
  match status st with
  | Sat => 1 <= solutions st
  | Unsat | Timeout | Error => solutions st = 0
  | Unknown => False
  end.
Proof.
  destruct (outcome l) as [rc out err | |] eqn:H; cbv zeta.
  - rewrite (run_minizinc_completed _ _ _ _ _ H).
    destruct (classify_cases timeout (clock_end l - clock_start l)%Q rc out err
                (scan (mkStats Unknown (Some (Finite (clock_end l - clock_start l)%Q))
                               None None None 0) (split LF out)))
      as [(_ & M & S & C) | [(_ & _ & S & C) | [(_ & _ & S & C) | (_ & _ & _ & S & C)]]];
      rewrite S, C; try (now rewrite scan_solutions).
    now apply contains_count_pos.
  - unfold run_minizinc. now rewrite H.
  - unfold run_minizinc. now rewrite H.
Qed.

(** C8.  In every outcome returned by the runner, on each of its three
    return paths, and in every row written by the batch: a [Sat] status
    comes with at least one solution, and the statuses [Unsat], [Timeout]
    and [Error] come with none. *)
Theorem solution_count_matches_status :
  (forall (timeout : Z) (l : Launch),
      let st := run_minizinc timeout l in
      (status st = Sat -> 1 <= solutions st)
      /\ (status st = Unsat \/ status st = Timeout \/ status st = Error ->
          solutions st = 0))
  /\ (forall (w : World) (r : Written),
        In r (csv (fst (main w))) ->
        (Status r = Sat -> 1 <= Solutions r)
        /\ (Status r = Unsat \/ Status r = Timeout \/ Status r = Error ->
            Solutions r = 0)).
Proof.
  assert (G : forall timeout l,
             let st := run_minizinc timeout l in
             (status st = Sat -> 1 <= solutions st)
             /\ (status st = Unsat \/ status st = Timeout \/ status st = Error ->
                 solutions st = 0)).
  { intros timeout l. pose proof (run_minizinc_solutions timeout l) as H.
    cbv zeta in *. destruct (status (run_minizinc timeout l));
      (split; [intros E | intros [E | [E | E]]]); try discriminate; auto;
      contradiction. }
  split; [exact G |].
  intros w r H. apply main_rows in H as ([[m d] n] & _ & _ & ->).
  apply (G TIMEOUT).
Qed.

Lemma solution_count_matches_status_witness :
  let l := mkLaunch 0 1 (Completed 1 "Q = [1]" "segfault") in
  status (run_minizinc 300 l) = Error /\ solutions (run_minizinc 300 l) = 0.
Proof.
  split; [reflexivity |].
  apply (proj1 solution_count_matches_status 300
           (mkLaunch 0 1 (Completed 1 "Q = [1]" "segfault"))).
  right; right; reflexivity.
Defined.

(** C2 as stated fails: a run that exits at once with a non-zero code
    and the word TIMEOUT on its error stream is classified [Timeout]
    although no time has passed. *)
Lemma timeout_status_with_short_time :
  let st := run_minizinc 300 (mkLaunch 0 0 (Completed 1 "" "TIMEOUT")) in
  status st = Timeout /\ time st = Some (Finite 0%Q)
  /\ ~ (inject_Z 300 - 1 <= 0)%Q.
Proof.
  cbv zeta. split; [reflexivity | split; [reflexivity |]].
  intros H. vm_compute in H. now apply H.
Qed.

(** C2, as amended.  A row written with status [Timeout] comes from a run
    that the runner terminated by force, and then its time is the
    configured timeout, or from a run that exited with a non-zero code
    and either printed TIMEOUT on its error stream or lasted, on the
    runner's clock, at least the timeout minus one second.  When the
    error stream does not hold TIMEOUT and no line of the output holds
    [solveTime], the time written is at least the timeout minus one
    second. *)
Theorem timeout_rows (w : World) (r : Written) :
  In r (csv (fst (main w))) -> Status r = Timeout ->
  exists rs,
    In rs (Spec.run_specs MODELS N_VALUES) /\ r = Spec.record_of w rs /\
    let l := Spec.launch_of w rs in
    (outcome l = TimeoutExpired /\ Time r = Some (Finite (inject_Z TIMEOUT)))
    \/ (exists rc out err,
          outcome l = Completed rc out err /\ rc <> 0
          /\ (contains "TIMEOUT" err = true
              \/ (inject_Z TIMEOUT - 1 <= clock_end l - clock_start l)%Q)
          /\ (contains "TIMEOUT" err = false ->
              (forall line, In line (split LF out) ->
                            contains "solveTime" line = false) ->
              exists t, Time r = Some (Finite t)
                        /\ (inject_Z TIMEOUT - 1 <= t)%Q)).
Proof.
  intros H S. apply main_rows in H as (rs & I & _ & ->).
  exists rs. split; [exact I | split; [reflexivity |]].
  destruct rs as [[m d] n]. cbv zeta.
  unfold Spec.record_of, row_of in *. cbn [Status Time] in *.
  set (l := Spec.launch_of w (m, d, n)) in *.
  destruct (outcome l) as [rc out err | |] eqn:O.
  - right. exists rc, out, err. split; [reflexivity |].
    rewrite (run_minizinc_completed _ _ _ _ _ O) in S |- *.
    destruct (classify_cases TIMEOUT (clock_end l - clock_start l)%Q rc out err
                (scan (mkStats Unknown (Some (Finite (clock_end l - clock_start l)%Q))
                               None None None 0) (split LF out)))
      as [(_ & _ & S' & _) | [(_ & _ & S' & _)
          | [(R & T & _) | (_ & _ & _ & S' & _)]]];
      try congruence.
    repeat split; auto.
    intros NT NS. exists (clock_end l - clock_start l)%Q.
    rewrite classify_time, scan_time, (child_times_none _ NS).
    split; [reflexivity |]. destruct T as [T | T]; [congruence | exact T].
  - left. unfold run_minizinc. rewrite O. auto.
  - unfold run_minizinc in S. rewrite O in S. discriminate.
Qed.

Lemma timeout_rows_witness :
  let r := mkRow "01_naive.mzn" "Naïf (contraintes binaires)" 8 Timeout
                 (Some (Finite (inject_Z 300))) None None None 0 in
  exists rs,
    In rs (Spec.run_specs MODELS N_VALUES) /\ r = Spec.record_of all_killed rs.
Proof.
  intros r.
  destruct (timeout_rows all_killed r) as (rs & I & E & _).
  - vm_compute. left. reflexivity.
  - reflexivity.
  - exists rs. split; assumption.
Defined.

(** ** The batch *)

(** C9.  The rows written by a batch are, in order, the records of the
    run requests whose model file and data file are both present; their
    number is the number of run requests minus the number of skipped
    ones; and each skipped request has its warning on the console, for
    its model file or for its data file.  The loop is a total function
    of the world: nothing is raised on a missing file. *)
Theorem missing_files_skip_run_specs (w : World) :
  let all := Spec.run_specs MODELS N_VALUES in
  let s := fst (main w) in
  csv s = map (Spec.record_of w)
              (filter (fun rs => negb (Spec.skipped w rs)) all)
  /\ (List.length (csv s)
      = List.length all - List.length (filter (Spec.skipped w) all))%nat
  /\ (forall rs, In rs all -> Spec.skipped w rs = true ->
        (In (ModelNotFound (fst (fst rs))) (console s)
         \/ In (DataNotFound (snd rs)) (console s))
        /\ forall r, In r (csv s) ->
                     ~ (Model r = fst (fst rs) /\ N r = snd rs)).
Proof.
  intros all s. subst s. unfold main. cbn [fst].
  pose proof (batch_csv w MODELS N_VALUES) as E. fold all in E.
  split; [exact E | split].
  - rewrite E, length_map.
    pose proof (filter_split_length (Spec.skipped w) all). lia.
  - intros rs I K. split.
    + unfold batch. now apply run_model_warns.
    + intros r R [EM EN]. rewrite E in R.
      apply in_map_iff in R as ([[m d] n] & <- & R).
      apply filter_In in R as [_ R]. cbn in EM, EN.
      destruct rs as [[m' d'] n']. cbn in EM, EN. subst m' n'.
      unfold Spec.skipped in *. rewrite K in R. discriminate.
Qed.

Lemma missing_files_skip_run_specs_witness :
  List.length (csv (fst (main two_missing))) = 112%nat
  /\ (In (ModelNotFound "13_random.mzn") (console (fst (main two_missing)))
      \/ In (DataNotFound 8) (console (fst (main two_missing)))).
Proof.
  pose proof (missing_files_skip_run_specs two_missing) as (_ & L & W).
  split.
  - rewrite L. reflexivity.
  - apply (W ("13_random.mzn", "Random", 8)).
    + vm_compute. do 108 right. left. reflexivity.
    + reflexivity.
Defined.

(** ** The statistics scan *)

Lemma split_head (sep : ascii) (s : string) :
  exists t, split sep s = Spec.before_first sep s :: t.
Proof.
  induction s as [| c s [t IH]]; simpl.
  - now exists [].
  - destruct (Ascii.eqb c sep); [now eexists |].
    rewrite IH. now exists t.
Qed.

Lemma split_second (sep : ascii) (s : string) :
  nth_error (split sep s) 1
  = option_map (Spec.before_first sep) (Spec.after_first sep s).
Proof.
  induction s as [| c s IH]; simpl; [reflexivity |].
  destruct (Ascii.eqb c sep).
  - destruct (split_head sep s) as [t ->]. reflexivity.
  - rewrite <- IH. destruct (split_head sep s) as [t ->]. reflexivity.
Qed.

Lemma int_field_value (line : string) : int_field line = Spec.counter_value line.
Proof.
  unfold int_field, field, Spec.counter_value, Spec.value_token.
  now rewrite split_second.
Qed.

Lemma float_field_value (line : string) : float_field line = Spec.time_value line.
Proof.
  unfold float_field, field, Spec.time_value, Spec.value_token.
  now rewrite split_second.
Qed.

Ltac by_key line :=
  rewrite ?scan_line_by_key; unfold try_set;
  rewrite <- ?int_field_value, <- ?float_field_value;
  destruct (Spec.key_of line) as [[| | |] |];
  try (destruct (int_field line)); try (destruct (float_field line)).

(** C6, as amended.  On each line the scan looks for the first key of
    the table the line holds: [nodes], then [failures] or [fails], then
    [propagations] or [propagates], each in any letter case, then
    [solveTime] in this spelling only.  The token is the text between
    the first [=] and the next one; without the blanks around it, it is
    read as an integer for a counter, and, with every [ms] removed, as a
    number for [solveTime].  A value that is read replaces the entry of
    its key ([time] for [solveTime]); every other entry is left as it
    was. *)
Theorem scan_line_by_table (st : Stats) (line : string) :
  let st' := scan_line st line in
  nodes st' = match Spec.key_of line, Spec.counter_value line with
              | Some Spec.KNodes, Some v => Some v
              | _, _ => nodes st
              end
  /\ failures st' = match Spec.key_of line, Spec.counter_value line with
                    | Some Spec.KFailures, Some v => Some v
                    | _, _ => failures st
                    end
  /\ propagations st' = match Spec.key_of line, Spec.counter_value line with
                        | Some Spec.KPropagations, Some v => Some v
                        | _, _ => propagations st
                        end
  /\ time st' = match Spec.key_of line, Spec.time_value line with
                | Some Spec.KSolveTime, Some t => Some t
                | _, _ => time st
                end
  /\ status st' = status st /\ solutions st' = solutions st.
Proof.
  cbv zeta. rewrite <- int_field_value, <- float_field_value.
  by_key line; repeat split; reflexivity.
Qed.

(** C6 as stated fails: a line with the key [solve_time], a line with
    [solveTime] in capitals and a counter with a unit after its number
    all leave the statistics as they were. *)
Lemma scan_line_misses_claimed_keys :
  let st := mkStats Unknown (Some (Finite 2%Q)) None None None 0 in
  scan_line st "solve_time = 5" = st
  /\ scan_line st "SOLVETIME = 5" = st
  /\ scan_line st "nodes = 120ms" = st.
Proof. repeat split. Qed.

Lemma malformed_line_no_change (st : Stats) (line : string) :
  Spec.malformed line = true -> scan_line st line = st.
Proof.
  unfold Spec.malformed. rewrite <- int_field_value, <- float_field_value.
  by_key line; simpl; intros H; try discriminate; reflexivity.
Qed.

Lemma scan_drops_malformed (lines : list string) :
  forall st,
    scan st lines = scan st (filter (fun l => negb (Spec.malformed l)) lines).
Proof.
  unfold scan. induction lines as [| line lines IH]; intros st; [reflexivity |].
  cbn [fold_left filter]. destruct (Spec.malformed line) eqn:M; cbn [negb].
  - rewrite (malformed_line_no_change st line M). apply IH.
  - cbn [fold_left]. apply IH.
Qed.

Lemma scan_line_counter (k : Spec.Key) (st : Stats) (line : string) :
  (Spec.key_of line = Some k -> Spec.malformed line = true) ->
  Spec.counter k (scan_line st line) = Spec.counter k st.
Proof.
  intros H. destruct (Spec.malformed line) eqn:M.
  - now rewrite malformed_line_no_change.
  - revert H. by_key line; destruct k; intros H; try reflexivity;
      now specialize (H eq_refl).
Qed.

Lemma scan_counter (k : Spec.Key) (lines : list string) :
  (forall line, In line lines ->
                Spec.key_of line = Some k -> Spec.malformed line = true) ->
  forall st, Spec.counter k (scan st lines) = Spec.counter k st.
Proof.
  unfold scan. induction lines as [| line lines IH]; intros H st; [reflexivity |].
  cbn [fold_left]. rewrite IH by (intros; apply H; [now right | assumption]).
  apply scan_line_counter. apply H. now left.
Qed.

Lemma classify_counter (k : Spec.Key) (timeout : Z) (elapsed : Q) (rc : Z)
  (out err : string) (stats : Stats) :
  Spec.counter k (classify timeout elapsed rc out err stats)
  = Spec.counter k stats.
Proof.
  unfold classify.
  repeat match goal with |- context [if ?b then _ else _] => destruct b end;
    destruct k; reflexivity.
Qed.

(** C7.  A line that holds a key and no readable value for it changes
    nothing: the scan goes on with the next line, its result is the
    result of the scan of the text without such lines, and a counter
    whose lines are all of this kind is absent ([None], not zero) from
    the outcome of the run. *)
Theorem malformed_tokens_are_skipped :
  (forall (st : Stats) (line : string),
      Spec.malformed line = true -> scan_line st line = st)
  /\ (forall (st : Stats) (before after : list string) (line : string),
        Spec.malformed line = true ->
        scan st (before ++ line :: after) = scan (scan st before) after)
  /\ (forall (st : Stats) (lines : list string),
        scan st lines = scan st (filter (fun l => negb (Spec.malformed l)) lines))
  /\ (forall (k : Spec.Key) (timeout : Z) (t0 t1 : Q) (rc : Z) (out err : string),
        (forall line, In line (split LF out) ->
                      Spec.key_of line = Some k -> Spec.malformed line = true) ->
        Spec.counter k (run_minizinc timeout (mkLaunch t0 t1 (Completed rc out err)))
        = None).
Proof.
  split; [exact malformed_line_no_change | split; [| split]].
  - intros st before after line M. unfold scan.
    rewrite fold_left_app. cbn [fold_left].
    now rewrite (malformed_line_no_change _ line M).
  - intros st lines. apply scan_drops_malformed.
  - intros k timeout t0 t1 rc out err H. unfold run_minizinc.
    cbn [outcome clock_end clock_start].
    rewrite classify_counter, (scan_counter k _ H). now destruct k.
Qed.

Lemma malformed_tokens_are_skipped_witness :
  nodes (run_minizinc 300
           (mkLaunch 0 1 (Completed 0 "nodes = many, failures = 3" ""))) = None.
Proof.
  apply (proj2 (proj2 (proj2 malformed_tokens_are_skipped)) Spec.KNodes).
  intros line [<- | []] _. reflexivity.
Defined.

(** ** Facts on [min] and [sorted] *)

Lemma Qlt_bool_iff (x y : Q) : Qlt_bool x y = true <-> (x < y)%Q.
Proof.
  unfold Qlt_bool. rewrite negb_true_iff. split.
  - intros H. apply Qnot_le_lt. intros L. apply Qle_bool_iff in L. congruence.
  - intros H. destruct (Qle_bool y x) eqn:L; [| reflexivity].
    apply Qle_bool_iff in L. exfalso. now apply (Qlt_not_le x y).
Qed.

Lemma Qlt_bool_false (x y : Q) : Qlt_bool x y = false <-> (y <= x)%Q.
Proof.
  unfold Qlt_bool. rewrite negb_false_iff. apply Qle_bool_iff.
Qed.

Lemma min_loop_first_least {A} (key : A -> Q) (rest : list A) :
  forall (seen : list A) (best : A),
    first_least key seen best ->
    first_least key (seen ++ rest)
      (fold_left (fun best y => if Qlt_bool (key y) (key best) then y else best)
                 rest best).
Proof.
  induction rest as [| y rest IH]; intros seen best F.
  - now rewrite app_nil_r.
  - cbn [fold_left].
    replace (seen ++ y :: rest) with ((seen ++ [y]) ++ rest)
      by now rewrite <- app_assoc.
    apply IH. destruct F as (pre & post & -> & Hpre & Hpost).
    destruct (Qlt_bool (key y) (key best)) eqn:L.
    + apply Qlt_bool_iff in L.
      exists (pre ++ best :: post), []. repeat split; [| easy].
      intros x Hx. apply in_app_or in Hx as [Hx | [<- | Hx]].
      * apply Qlt_trans with (key best); auto.
      * exact L.
      * apply Qlt_le_trans with (key best); auto.
    + apply Qlt_bool_false in L.
      exists pre, (post ++ [y]). repeat split; auto.
      * now rewrite <- app_assoc.
      * intros x Hx. apply in_app_or in Hx as [Hx | [<- | []]]; auto.
Qed.

Lemma py_min_first_least {A} (key : A -> Q) (l : list A) :
  match py_min key l with
  | Some b => first_least key l b
  | None => l = []
  end.
Proof.
  destruct l as [| x l]; [reflexivity |]. unfold py_min.
  apply (min_loop_first_least key l [x] x).
  exists [], []. repeat split; easy.
Qed.

Lemma insert_by_perm {A} (lt : A -> A -> bool) (x : A) (l : list A) :
  Permutation (insert_by lt x l) (x :: l).
Proof.
  induction l as [| y l IH]; simpl; [reflexivity |].
  destruct (lt y x); [| reflexivity].
  rewrite IH. apply perm_swap.
Qed.

Lemma sorted_perm {A} (lt : A -> A -> bool) (l : list A) :
  Permutation (sorted lt l) l.
Proof.
  unfold sorted. induction l as [| x l IH]; simpl; [reflexivity |].
  rewrite insert_by_perm. now constructor.
Qed.

Lemma sorted_set_In (n : Z) (l : list Z) : In n (sorted_set l) <-> In n l.
Proof.
  unfold sorted_set. rewrite <- (nodup_In Z.eq_dec l n). split.
  - apply Permutation_in, sorted_perm.
  - apply Permutation_in. symmetry. apply sorted_perm.
Qed.

Lemma sorted_set_NoDup (l : list Z) : NoDup (sorted_set l).
Proof.
  unfold sorted_set.
  apply (Permutation_NoDup (l := nodup Z.eq_dec l)).
  - symmetry. apply sorted_perm.
  - apply NoDup_nodup.
Qed.

(** ** The reductions *)

Lemma best_entries (rows : list Row) (ns : list Z) (n : Z) (o : option Row) :
  In (n, o) (map (fun n => (n, Visualize.best_of rows n)) ns) ->
  o = Visualize.best_of rows n.
Proof.
  intros H. apply in_map_iff in H as (n' & E & _). now injection E as <- <-.
Qed.

(** ** Facts on dictionaries *)

Section Dict.

Context {V : Type}.
Implicit Types (d : dict V) (k : string) (v : V).

Lemma dict_mem_In k d : dict_mem k d = true <-> In k (map fst d).
Proof.
  unfold dict_mem. induction d as [| [k' v'] d IH]; simpl.
  - split; [discriminate | tauto].
  - destruct (String.eqb_spec k' k) as [-> | ne].
    + split; auto.
    + rewrite IH. split; [auto | intros [E | I]; [contradiction | exact I]].
Qed.

Lemma dict_set_keys k v d :
  map fst (dict_set k v d)
  = if dict_mem k d then map fst d else map fst d ++ [k].
Proof.
  unfold dict_mem. induction d as [| [k' v'] d IH]; simpl; [reflexivity |].
  destruct (String.eqb k' k); simpl; [reflexivity |].
  rewrite IH. now destruct (dict_get k d).
Qed.

Lemma dict_update_keys k (f : V -> V) d :
  map fst (dict_update k f d) = map fst d.
Proof.
  induction d as [| [k' v'] d IH]; simpl; [reflexivity |].
  destruct (String.eqb k' k); simpl; [reflexivity | now rewrite IH].
Qed.

Lemma dict_get_set k k' v d :
  dict_get k (dict_set k' v d)
  = if String.eqb k' k then Some v else dict_get k d.
Proof.
  induction d as [| [k0 v0] d IH]; simpl.
  - reflexivity.
  - destruct (String.eqb_spec k0 k') as [-> | ne]; simpl.
    + now destruct (String.eqb k' k).
    + rewrite IH. destruct (String.eqb_spec k0 k) as [-> | ne']; [| reflexivity].
      destruct (String.eqb_spec k' k) as [-> | _]; [contradiction | reflexivity].
Qed.

Lemma dict_get_update k k' (f : V -> V) d :
  dict_get k (dict_update k' f d)
  = if String.eqb k' k then option_map f (dict_get k d) else dict_get k d.
Proof.
  induction d as [| [k0 v0] d IH]; simpl.
  - now destruct (String.eqb k' k).
  - destruct (String.eqb_spec k0 k') as [-> | ne]; simpl.
    + now destruct (String.eqb k' k).
    + rewrite IH. destruct (String.eqb_spec k0 k) as [-> | ne']; [| reflexivity].
      destruct (String.eqb_spec k' k) as [-> | _]; [contradiction | reflexivity].
Qed.

Lemma dict_get_entry k v d :
  NoDup (map fst d) -> In (k, v) d -> dict_get k d = Some v.
Proof.
  induction d as [| [k' v'] d IH]; simpl; [tauto |].
  intros ND [E | I].
  - injection E as -> ->. now rewrite String.eqb_refl.
  - inversion ND as [| ? ? NI ND']; subst.
    destruct (String.eqb_spec k' k) as [-> | _]; [| now apply IH].
    exfalso. apply NI. apply in_map_iff. now exists (k, v).
Qed.

End Dict.

(** ** Facts on insertion into a sorted list *)

Section Sorting.

Context {A : Type} (lt : A -> A -> bool).

Hypothesis lt_asym : forall a b, lt a b = true -> lt b a = false.
Hypothesis not_after_trans :
  forall a b c, not_after lt a b -> not_after lt b c -> not_after lt a c.

Lemma insert_by_sorted (x : A) (l : list A) :
  Sorted (not_after lt) l -> Sorted (not_after lt) (insert_by lt x l).
Proof.
  induction l as [| y l IH]; intros S; simpl.
  - repeat constructor.
  - inversion S as [| ? ? S' Hd]; subst.
    destruct (lt y x) eqn:L.
    + constructor; [now apply IH |].
      destruct l as [| z l]; simpl.
      * constructor. now apply lt_asym.
      * inversion Hd; subst. destruct (lt z x).
        -- now constructor.
        -- constructor. now apply lt_asym.
    + constructor; [exact S | now constructor].
Qed.

Lemma sorted_is_sorted (l : list A) :
  StronglySorted (not_after lt) (sorted lt l).
Proof.
  apply Sorted_StronglySorted.
  - exact not_after_trans.
  - unfold sorted. induction l as [| x l IH]; simpl.
    + constructor.
    + now apply insert_by_sorted.
Qed.

End Sorting.

(** ** The per-model table of visualize.py *)

Lemma add_row_keys (d : dict Visualize.ModelData) (r : Row) :
  map fst (Visualize.add_row d r)
  = if dict_mem (Description r) d then map fst d
    else map fst d ++ [Description r].
Proof.
  unfold Visualize.add_row. rewrite dict_update_keys.
  destruct (dict_mem (Description r) d) eqn:M; [reflexivity |].
  now rewrite dict_set_keys, M.
Qed.

Lemma add_rows_keys (rows : list Row) :
  forall d,
    NoDup (map fst d) ->
    NoDup (map fst (fold_left Visualize.add_row rows d))
    /\ forall k, In k (map fst (fold_left Visualize.add_row rows d))
                 <-> In k (map fst d) \/ In k (map Description rows).
Proof.
  induction rows as [| r rows IH]; intros d ND; cbn [fold_left map].
  - split; [exact ND | intros k; simpl; tauto].
  - assert (ND' : NoDup (map fst (Visualize.add_row d r))).
    { rewrite add_row_keys. destruct (dict_mem (Description r) d) eqn:M; auto.
      apply NoDup_app; [exact ND | repeat constructor; easy |].
      intros k I [<- | []]. apply dict_mem_In in I. congruence. }
    destruct (IH _ ND') as [N1 N2]. split; [exact N1 |].
    intros k. rewrite N2, add_row_keys.
    destruct (dict_mem (Description r) d) eqn:M.
    + apply dict_mem_In in M. simpl. split; [tauto |].
      intros [I | [<- | I]]; auto.
    + rewrite in_app_iff. simpl. tauto.
Qed.

Lemma add_row_get (k : string) (d : dict Visualize.ModelData) (r : Row) :
  dict_get k (Visualize.add_row d r)
  = if String.eqb (Description r) k
    then Some (Visualize.count_row
                 (match dict_get k d with Some v => v | None => Visualize.empty_data end) r)
    else dict_get k d.
Proof.
  unfold Visualize.add_row. rewrite dict_get_update.
  destruct (String.eqb_spec (Description r) k) as [-> | ne].
  - unfold dict_mem. destruct (dict_get k d) eqn:G.
    + now rewrite G.
    + now rewrite dict_get_set, String.eqb_refl.
  - destruct (dict_mem (Description r) d); [reflexivity |].
    rewrite dict_get_set. now destruct (String.eqb_spec (Description r) k).
Qed.

Lemma add_rows_get (k : string) (rows : list Row) :
  forall d,
    dict_get k (fold_left Visualize.add_row rows d)
    = match dict_get k d, rows_of k rows with
      | None, [] => None
      | o, l =>
          Some (fold_left Visualize.count_row l
                  (match o with Some v => v | None => Visualize.empty_data end))
      end.
Proof.
  unfold rows_of.
  induction rows as [| r rows IH]; intros d; cbn [fold_left filter].
  - now destruct (dict_get k d).
  - rewrite IH, add_row_get.
    destruct (String.eqb (Description r) k); cbn [fold_left].
    + now destruct (dict_get k d).
    + reflexivity.
Qed.

Lemma count_row_totals (d : Visualize.ModelData) (r : Row) :
  let d' := Visualize.count_row d r in
  Visualize.total d' = Visualize.total d + 1
  /\ Visualize.solved d' = Visualize.solved d + (if is_sat r then 1 else 0)
  /\ (Z.of_nat (List.length (Visualize.times d)) <= Visualize.solved d ->
      Z.of_nat (List.length (Visualize.times d')) <= Visualize.solved d').
Proof.
  unfold Visualize.count_row, is_sat.
  destruct (status_eqb (Status r) Sat); destruct (Time r); destruct (Nodes r);
    cbn [Visualize.total Visualize.solved Visualize.times];
    rewrite ?length_app; cbn [List.length]; repeat split; lia.
Qed.

Lemma count_rows_totals (l : list Row) :
  forall d,
    let d' := fold_left Visualize.count_row l d in
    Visualize.total d' = Visualize.total d + Z.of_nat (List.length l)
    /\ Visualize.solved d'
       = Visualize.solved d + Z.of_nat (List.length (filter is_sat l))
    /\ (Z.of_nat (List.length (Visualize.times d)) <= Visualize.solved d ->
        Z.of_nat (List.length (Visualize.times d')) <= Visualize.solved d').
Proof.
  induction l as [| r l IH]; intros d; cbn [fold_left List.length filter].
  - cbv zeta. repeat split; auto; lia.
  - destruct (IH (Visualize.count_row d r)) as (T & S & L).
    destruct (count_row_totals d r) as (T1 & S1 & L1). cbv zeta in *.
    split; [| split].
    + rewrite T, T1. lia.
    + rewrite S, S1. destruct (is_sat r); cbn [List.length]; lia.
    + auto.
Qed.

Lemma key_lt_asym (a b : option Q) :
  Visualize.key_lt a b = true -> Visualize.key_lt b a = false.
Proof.
  destruct a as [x |], b as [y |]; simpl; try easy.
  rewrite Qlt_bool_iff, Qlt_bool_false. apply Qlt_le_weak.
Qed.

Lemma key_not_after_trans (a b c : option Q) :
  Visualize.key_lt b a = false -> Visualize.key_lt c b = false ->
  Visualize.key_lt c a = false.
Proof.
  destruct a as [x |], b as [y |], c as [z |]; simpl; try easy.
  rewrite !Qlt_bool_false. apply Qle_trans.
Qed.

Lemma models_data_keys (rows : list Row) :
  NoDup (map fst (Visualize.models_data rows))
  /\ forall k, In k (map fst (Visualize.models_data rows))
               <-> In k (map Description rows).
Proof.
  destruct (add_rows_keys rows [] (NoDup_nil _)) as [ND K].
  split; [exact ND |]. intros k. rewrite (K k). simpl. tauto.
Qed.

Lemma models_data_entry (rows : list Row) (k : string) (v : Visualize.ModelData) :
  In (k, v) (Visualize.models_data rows) ->
  v = fold_left Visualize.count_row (rows_of k rows) Visualize.empty_data.
Proof.
  intros I. apply dict_get_entry in I; [| apply models_data_keys].
  unfold Visualize.models_data in I. rewrite add_rows_get in I. simpl in I.
  destruct (rows_of k rows); [discriminate | now injection I].
Qed.

Lemma sorted_models_entry (rows : list Row) (e : string * Visualize.ModelData) :
  In e (Visualize.sorted_models rows) <-> In e (Visualize.models_data rows).
Proof.
  unfold Visualize.sorted_models. split; apply Permutation_in;
    [| symmetry]; apply sorted_perm.
Qed.

Lemma entry_totals (rows : list Row) (e : string * Visualize.ModelData) :
  In e (Visualize.sorted_models rows) ->
  let mine := rows_of (fst e) rows in
  Visualize.total (snd e) = Z.of_nat (List.length mine)
  /\ Visualize.solved (snd e) = Z.of_nat (List.length (filter is_sat mine))
  /\ (filter is_sat mine = [] -> Visualize.times (snd e) = []).
Proof.
  destruct e as [k v]. intros I. apply sorted_models_entry in I.
  apply models_data_entry in I. cbn [fst snd]. subst v.
  destruct (count_rows_totals (rows_of k rows) Visualize.empty_data) as (T & S & L).
  cbv zeta in *. rewrite T, S. repeat split.
  intros E. rewrite E in *. simpl in L, S. rewrite S in L.
  specialize (L (Z.le_refl 0)).
  destruct (Visualize.times _); [reflexivity | simpl in L; lia].
Qed.

(** ** The per-model dictionary of benchmark.py *)

Lemma dict_set_In_keys {V} (k k' : string) (v : V) (d : dict V) :
  In k (map fst (dict_set k' v d)) <-> k = k' \/ In k (map fst d).
Proof.
  rewrite dict_set_keys. destruct (dict_mem k' d) eqn:M.
  - apply dict_mem_In in M. split; [auto |]. now intros [-> | I].
  - rewrite in_app_iff. simpl. split; [intros [I | [E | []]] | intros [E | I]]; auto.
Qed.

Lemma model_stats_keys (rows : list Row) (models : list (string * string)) :
  forall (d : dict (Q * Z * Z)) (k : string),
    In k (map fst (fold_left (add_model_stats rows) models d))
    <-> In k (map fst d)
        \/ exists m, In (m, k) models /\ solved_rows_of m rows <> [].
Proof.
  induction models as [| [m desc] models IH]; intros d k; cbn [fold_left].
  - split; [auto | intros [I | (m & [] & _)]; exact I].
  - rewrite IH. unfold add_model_stats at 1. fold (solved_rows_of m rows).
    destruct (solved_rows_of m rows) as [| r0 l0] eqn:E.
    + split.
      * intros [I | (m' & I & NE)]; [now left |].
        right. exists m'. split; [now right | exact NE].
      * intros [I | (m' & [Eq | I] & NE)]; [now left | |].
        -- injection Eq as <- <-. congruence.
        -- right. now exists m'.
    + rewrite dict_set_In_keys. split.
      * intros [[-> | I] | (m' & I & NE)].
        -- right. exists m. split; [now left | congruence].
        -- now left.
        -- right. exists m'. split; [now right | exact NE].
      * intros [I | (m' & [Eq | I] & NE)].
        -- left. now right.
        -- injection Eq as <- <-. left. now left.
        -- right. now exists m'.
Qed.

Lemma solved_rows_of_nonempty (m : string) (rows : list Row) :
  solved_rows_of m rows <> []
  <-> exists r, In r rows /\ Model r = m /\ Status r = Sat /\ Time r <> None.
Proof.
  unfold solved_rows_of. split.
  - destruct (filter (fun r => String.eqb (Model r) m && solved_timed r) rows)
      as [| r l] eqn:E; [congruence |]. intros _.
    assert (I : In r (filter (fun r => String.eqb (Model r) m && solved_timed r) rows))
      by (rewrite E; now left).
    apply filter_In in I as [I P]. unfold solved_timed in P.
    apply andb_true_iff in P as [P1 P2]. apply andb_true_iff in P2 as [P2 P3].
    exists r. repeat split; auto.
    + now apply String.eqb_eq.
    + now destruct (Status r).
    + now destruct (Time r).
  - intros (r & I & <- & S & T) E.
    assert (J : In r (filter (fun x => String.eqb (Model x) (Model r) && solved_timed x) rows)).
    { apply filter_In. split; [exact I |]. unfold solved_timed.
      rewrite String.eqb_refl, S. now destruct (Time r). }
    now rewrite E in J.
Qed.

(** C5, as amended.  In the table of [generate_summary_table] every model
    that has a record is reported on one line, with its number of
    records and its number of solved records; a model without a solved
    record takes the infinite key in the ascending sort by mean time, so
    that it stands after every model that has a mean time, and its line
    shows a mean time and a rate of zero.  In the summary of
    [generate_summary] the models reported are the models of the
    catalogue that have a solved record with a time, and no other. *)
Theorem model_report_coverage (rows : list Row) :
  let lines := fst (Visualize.generate_summary_table rows) in
  let entries := Visualize.sorted_models rows in
  lines = map Visualize.line_of entries
  /\ NoDup (map Visualize.line_model lines)
  /\ (forall k, In k (map Visualize.line_model lines)
                <-> In k (map Description rows))
  /\ (forall line, In line lines ->
        let mine := rows_of (Visualize.line_model line) rows in
        Visualize.line_total line = Z.of_nat (List.length mine)
        /\ Visualize.line_solved line
           = Z.of_nat (List.length (filter is_sat mine))
        /\ (filter is_sat mine = [] ->
            (Visualize.rate line == 0)%Q /\ Visualize.avg_time line = 0%Q))
  /\ StronglySorted
       (fun a b => Visualize.key_lt (Visualize.sort_key b) (Visualize.sort_key a)
                   = false)
       entries
  /\ (forall e, In e entries ->
        filter is_sat (rows_of (fst e) rows) = [] ->
        Visualize.sort_key e = None)
  /\ (forall d, In d (map fst (model_lines (generate_summary rows)))
                <-> exists m, In (m, d) MODELS
                              /\ exists r, In r rows /\ Model r = m
                                           /\ Status r = Sat /\ Time r <> None).
Proof.
  intros lines entries.
  assert (EL : lines = map Visualize.line_of entries) by reflexivity.
  assert (KM : map Visualize.line_model lines = map fst entries).
  { rewrite EL, map_map. apply map_ext. now intros [k v]. }
  assert (P : Permutation (map fst entries) (map fst (Visualize.models_data rows))).
  { apply Permutation_map. apply sorted_perm. }
  destruct (models_data_keys rows) as [ND K].
  split; [exact EL | split; [| split; [| split; [| split; [| split]]]]].
  - rewrite KM. apply (Permutation_NoDup (l := map fst (Visualize.models_data rows)));
      [now symmetry | exact ND].
  - intros k. rewrite KM, <- K. split; apply Permutation_in; [| symmetry]; exact P.
  - intros line I. rewrite EL in I. apply in_map_iff in I as ([k v] & <- & I).
    destruct (entry_totals rows (k, v) I) as (T & S & Z0). cbn [fst snd] in *.
    cbn [Visualize.line_of Visualize.line_model Visualize.line_total
         Visualize.line_solved Visualize.rate Visualize.avg_time].
    split; [exact T | split; [exact S | intros E; split]].
    + rewrite S, E. simpl. unfold Qdiv. apply Qmult_0_l.
    + now rewrite (Z0 E).
  - apply (sorted_is_sorted
             (fun a b => Visualize.key_lt (Visualize.sort_key a) (Visualize.sort_key b))).
    + intros a b. apply key_lt_asym.
    + intros a b c. unfold not_after. apply key_not_after_trans.
  - intros e I E. unfold Visualize.sort_key.
    now rewrite (proj2 (proj2 (entry_totals rows e I)) E).
  - intros d. cbn [generate_summary model_lines]. unfold Benchmark.sorted_models.
    assert (Q0 : forall l : list (string * (Q * Z * Z)),
               In d (map fst (sorted (fun a b => Qlt_bool (fst (fst (snd a)))
                                                         (fst (fst (snd b)))) l))
               <-> In d (map fst l)).
    { intros l. split; apply Permutation_in; [| symmetry];
        apply Permutation_map, sorted_perm. }
    rewrite Q0. unfold model_stats. rewrite model_stats_keys. simpl. split.
    + intros [[] | (m & I & NE)]. exists m. split; [exact I |].
      now apply solved_rows_of_nonempty.
    + intros (m & I & R). right. exists m. split; [exact I |].
      now apply solved_rows_of_nonempty.
Qed.

Lemma model_report_coverage_witness :
  In "Contraintes globales"%string
     (map Visualize.line_model (fst (Visualize.generate_summary_table scenario_d)))
  /\ ~ In "Contraintes globales"%string
         (map fst (model_lines (generate_summary scenario_d))).
Proof.
  destruct (model_report_coverage scenario_d) as (_ & _ & K & _ & _ & _ & B).
  split.
  - apply K. simpl. auto.
  - intros I. apply B in I as (m & I & r & R & <- & S & T).
    simpl in R. destruct R as [<- | [<- | [<- | [<- | []]]]]; simpl in *;
      try discriminate; try contradiction;
      repeat (destruct I as [I | I]; [discriminate I |]); exact I.
Defined.

(** C5 as stated fails for the summary of benchmark.py: a model of the
    catalogue whose only record is a timeout has a record and no line. *)
Lemma unsolved_model_not_in_summary :
  let rows := [ mkRow "02_global.mzn" "Contraintes globales" 8 Timeout
                      (Some 300%Q) None None None 0 ] in
  In ("02_global.mzn", "Contraintes globales")%string MODELS
  /\ In "02_global.mzn"%string (map Model rows)
  /\ model_lines (generate_summary rows) = [].
Proof. cbv zeta. split; [simpl; auto | split; [simpl; auto | reflexivity]]. Qed.

(** * Further properties of the code *)

(** ** The runner, beyond the claims *)

Lemma last_map_some {A} (l : list A) (d : A) :
  exists x, last (map Some l) (Some d) = Some x.
Proof.
  revert d. induction l as [| a l IH]; intros d; [now exists d |].
  destruct (IH a) as [x E]. exists x.
  destruct l as [| b l]; [now injection E as <- |].
  cbn [map] in *. change (last (Some b :: map Some l) (Some d) = Some x).
  now rewrite (last_cons_default _ _ _ (Some a)).
Qed.

Lemma time_absent_iff (timeout : Z) (l : Launch) :
  time (run_minizinc timeout l) = None <-> outcome l = OtherException.
Proof.
  destruct (outcome l) as [rc out err | |] eqn:O.
  - rewrite (run_minizinc_completed _ _ _ _ _ O), classify_time, scan_time.
    cbn [time].
    destruct (last_map_some (child_times (split LF out))
                            (Finite (clock_end l - clock_start l)%Q)) as [x ->].
    split; discriminate.
  - unfold run_minizinc. rewrite O. split; discriminate.
  - unfold run_minizinc. rewrite O. split; reflexivity.
Qed.

Lemma status_not_unknown (timeout : Z) (l : Launch) :
  status (run_minizinc timeout l) <> Unknown.
Proof.
  pose proof (run_minizinc_solutions timeout l) as H. cbv zeta in H.
  intros E. now rewrite E in H.
Qed.

(** X1.  The runner never returns the status it starts with, and the
    time entry is absent exactly when the launch raised something other
    than the expiry of the deadline. *)
Theorem outcome_status_and_time (timeout : Z) (l : Launch) :
  status (run_minizinc timeout l) <> Unknown
  /\ (time (run_minizinc timeout l) = None <-> outcome l = OtherException).
Proof.
  split.
  - apply status_not_unknown.
  - apply time_absent_iff.
Qed.

(** X2.  A process that exits with a non-zero code is never reported as
    solved nor as unsatisfiable, whatever it printed: its status is
    [Timeout] or [Error], [Timeout] exactly when its error stream holds
    TIMEOUT or its measured time is within one second of the timeout, and
    its number of solutions is zero even when the output holds solution
    markers. *)
Theorem nonzero_exit_never_solved
  (timeout : Z) (l : Launch) (rc : Z) (out err : string) :
  outcome l = Completed rc out err -> rc <> 0 ->
  let st := run_minizinc timeout l in
  (status st = Timeout \/ status st = Error)
  /\ solutions st = 0
  /\ (status st = Timeout <->
      contains "TIMEOUT" err = true
      \/ (inject_Z timeout - 1 <= clock_end l - clock_start l)%Q).
Proof.
  intros O R st. subst st. rewrite (run_minizinc_completed _ _ _ _ _ O).
  destruct (classify_cases timeout (clock_end l - clock_start l)%Q rc out err
              (scan (mkStats Unknown (Some (Finite (clock_end l - clock_start l)%Q))
                             None None None 0) (split LF out)))
    as [(R0 & _) | [(R0 & _) | [(_ & T & S & C) | (_ & T1 & T2 & S & C)]]];
    try contradiction; rewrite S, C, scan_solutions; cbn [solutions].
  - repeat split; auto.
  - repeat split; auto; try discriminate.
    intros [T | T]; [congruence | contradiction].
Qed.

Lemma nonzero_exit_never_solved_witness :
  let l := mkLaunch 0 2 (Completed 1 "Q = [1; 3; 0; 2]" "") in
  contains MARKER "Q = [1; 3; 0; 2]" = true
  /\ status (run_minizinc 300 l) = Error
  /\ solutions (run_minizinc 300 l) = 0.
Proof.
  split; [reflexivity | split; [reflexivity |]].
  apply (nonzero_exit_never_solved 300
           (mkLaunch 0 2 (Completed 1 "Q = [1; 3; 0; 2]" ""))
           1 "Q = [1; 3; 0; 2]" "" eq_refl).
  discriminate.
Defined.

Lemma scan_line_counter_values (k : Key) (st : Stats) (line : string) :
  k <> KSolveTime ->
  counter k (scan_line st line)
  = last (map Some (counter_values k [line])) (counter k st).
Proof.
  intros NK. unfold counter_values. cbn [flat_map].
  rewrite scan_line_by_key, <- int_field_value. unfold try_set.
  destruct (key_of line) as [[| | |] |]; destruct k; try contradiction;
    try (destruct (int_field line)); try (destruct (float_field line));
    reflexivity.
Qed.

Lemma scan_counter_values (k : Key) (lines : list string) :
  k <> KSolveTime ->
  forall st,
    counter k (scan st lines)
    = last (map Some (counter_values k lines)) (counter k st).
Proof.
  intros NK. unfold scan.
  induction lines as [| line lines IH]; intros st; [reflexivity |].
  cbn [fold_left]. rewrite IH, scan_line_counter_values by exact NK.
  replace (counter_values k (line :: lines))
    with (counter_values k [line] ++ counter_values k lines).
  - now rewrite map_app, last_app_default.
  - unfold counter_values. cbn [flat_map]. now rewrite app_nil_r.
Qed.

(** X3.  When several lines of the output carry a readable value for the
    same counter, the outcome holds the value of the last of them; with no
    such line the counter is absent. *)
Theorem last_counter_line_wins
  (k : Key) (timeout : Z) (t0 t1 : Q) (rc : Z) (out err : string) :
  k <> KSolveTime ->
  counter k (run_minizinc timeout (mkLaunch t0 t1 (Completed rc out err)))
  = last (map Some (counter_values k (split LF out))) None.
Proof.
  intros NK. unfold run_minizinc. cbn [outcome clock_end clock_start].
  rewrite classify_counter, (scan_counter_values k _ NK). now destruct k.
Qed.

Lemma last_counter_line_wins_witness :
  nodes (run_minizinc 300
           (mkLaunch 0 1 (Completed 0 "nodes=1=NODES=2=Nodes=x" ""))) = Some 1
  /\ failures (run_minizinc 300
                 (mkLaunch 0 1
                    (Completed 0 (String.append "fails = 4"
                                    (String LF "Failures = 7")) "")))
     = Some 7.
Proof.
  split.
  - apply (last_counter_line_wins KNodes 300 0 1 0 "nodes=1=NODES=2=Nodes=x" "").
    discriminate.
  - apply (last_counter_line_wins KFailures 300 0 1 0
             (String.append "fails = 4" (String LF "Failures = 7")) "").
    discriminate.
Defined.

Lemma no_separator_after_first (c : ascii) (s : string) :
  contains (String c EmptyString) s = false -> after_first c s = None.
Proof.
  induction s as [| a s IH]; [reflexivity |].
  cbn [contains after_first]. intros H. apply orb_false_iff in H as [P H].
  destruct (Ascii.eqb_spec a c) as [-> | ne].
  - simpl in P. destruct (ascii_dec c c); [| contradiction].
    now destruct s.
  - now apply IH.
Qed.

(** X4.  A line that holds a key and no [=] is read for nothing: the
    index error of the missing token is swallowed and the statistics
    stay as they were. *)
Theorem line_without_equals_is_skipped (st : Stats) (line : string) :
  contains "=" line = false -> scan_line st line = st.
Proof.
  intros H. apply no_separator_after_first in H.
  rewrite scan_line_by_key, int_field_value, float_field_value.
  unfold counter_value, time_value, value_token. rewrite H. cbn.
  now destruct (key_of line) as [[| | |] |].
Qed.

Lemma line_without_equals_is_skipped_witness :
  scan_line (mkStats Unknown (Some (Finite 2%Q)) None None None 0) "nodes: 120"
  = mkStats Unknown (Some (Finite 2%Q)) None None None 0.
Proof.
  apply line_without_equals_is_skipped. reflexivity.
Defined.

(** X5.  The statistics are read from the standard output only: two
    completed runs that differ by their error stream alone have the same
    counters, time and number of solutions, and the same outcome
    altogether when the exit code is zero. *)
Theorem statistics_ignore_stderr
  (timeout : Z) (t0 t1 : Q) (rc : Z) (out err err' : string) :
  let a := run_minizinc timeout (mkLaunch t0 t1 (Completed rc out err)) in
  let b := run_minizinc timeout (mkLaunch t0 t1 (Completed rc out err')) in
  nodes a = nodes b /\ failures a = failures b
  /\ propagations a = propagations b /\ time a = time b
  /\ solutions a = solutions b
  /\ (rc = 0 -> a = b).
Proof.
  cbv zeta. unfold run_minizinc, classify. cbn [outcome clock_end clock_start].
  destruct (rc =? 0) eqn:R; cbn [andb].
  - destruct (contains MARKER out); repeat split.
  - apply Z.eqb_neq in R.
    destruct (contains "TIMEOUT" err), (contains "TIMEOUT" err'); cbn [orb];
      try destruct (Qle_bool _ _); repeat split; intros E; contradiction.
Qed.

Lemma statistics_ignore_stderr_witness :
  run_minizinc 300 (mkLaunch 0 1 (Completed 0 "nodes = 3" "TIMEOUT"))
  = run_minizinc 300 (mkLaunch 0 1 (Completed 0 "nodes = 3" "")).
Proof.
  apply (statistics_ignore_stderr 300 0 1 0 "nodes = 3" "TIMEOUT" "").
  reflexivity.
Defined.

(** ** The batch, beyond the claims *)

Section Progress.

Variable w : World.
Variable total : Z.

Lemma run_size_progress (model_file description : string) (n_values : list Z) :
  forall s,
    progress_bounded total s ->
    let s' := fold_left (run_size w total model_file description) n_values s in
    progress_bounded total s'
    /\ current s' = current s + Z.of_nat (List.length n_values).
Proof.
  induction n_values as [| n ns IH]; intros s B; cbn [fold_left List.length].
  - cbv zeta. split; [exact B | lia].
  - set (s1 := run_size w total model_file description s n).
    assert (C1 : current s1 = current s + 1).
    { unfold s1, run_size. now destruct (negb (path_exists w (data_path_of n))). }
    assert (B1 : progress_bounded total s1).
    { destruct B as [B0 B]. split; [lia |].
      intros c t m k st I. rewrite C1. unfold s1, run_size in I.
      destruct (negb (path_exists w (data_path_of n))); cbn [console] in I;
        apply in_app_or in I as [I | [I | []]].
      - destruct (B _ _ _ _ _ I). split; [lia | assumption].
      - discriminate.
      - destruct (B _ _ _ _ _ I). split; [lia | assumption].
      - injection I as <- <- _ _ _. split; [lia | reflexivity]. }
    destruct (IH s1 B1) as [B2 C2]. cbv zeta in *. split; [exact B2 | lia].
Qed.

Lemma run_model_progress (n_values : list Z) (models : list (string * string)) :
  forall s,
    progress_bounded total s ->
    let s' := fold_left (run_model w total n_values) models s in
    progress_bounded total s'
    /\ current s'
       = current s
         + Z.of_nat (List.length n_values) * Z.of_nat (present_models w models).
Proof.
  unfold present_models.
  induction models as [| [m d] ms IH]; intros s B; cbn [fold_left filter fst].
  - cbv zeta. split; [exact B | simpl; lia].
  - set (s1 := run_model w total n_values s (m, d)).
    assert (H1 : progress_bounded total s1
                 /\ current s1
                    = current s
                      + (if path_exists w (model_path_of m)
                         then Z.of_nat (List.length n_values) else 0)).
    { unfold s1, run_model.
      destruct (path_exists w (model_path_of m)); cbn [negb].
      - now apply run_size_progress.
      - cbn [current]. split; [| lia]. destruct B as [B0 B]. split; [exact B0 |].
        intros c t m' k st I. cbn [console] in I.
        apply in_app_or in I as [I | [I | []]];
          [exact (B _ _ _ _ _ I) | discriminate]. }
    destruct H1 as [B1 C1]. destruct (IH s1 B1) as [B2 C2]. cbv zeta in *.
    split; [exact B2 |]. rewrite C2, C1.
    destruct (path_exists w (model_path_of m)); cbn [List.length]; lia.
Qed.

End Progress.

(** X6.  At the end of a batch the progress counter is the number of
    sizes times the number of models whose file is present: the sizes of
    a missing model are not counted, a missing data file is.  The counter
    never exceeds the announced total, and every progress line shows a
    rank between 1 and the counter, with that total. *)
Theorem progress_counter (w : World) (models : list (string * string))
  (n_values : list Z) :
  let s := batch w models n_values in
  let total := Z.of_nat (List.length models) * Z.of_nat (List.length n_values) in
  current s = Z.of_nat (List.length n_values) * Z.of_nat (present_models w models)
  /\ current s <= total
  /\ forall c t m n st,
       In (Progress c t m n st) (console s) -> 1 <= c <= current s /\ t = total.
Proof.
  intros s total.
  assert (B0 : progress_bounded total (mkSession [] [] 0)).
  { split; [simpl; lia | intros c t m n st []]. }
  destruct (run_model_progress w total n_values models _ B0) as [[_ B] C].
  change (fold_left (run_model w total n_values) models (mkSession [] [] 0))
    with s in B, C.
  cbn [current] in C.
  split; [lia | split; [| exact B]].
  rewrite C. unfold total, present_models.
  pose proof (filter_length_le
                (fun m => path_exists w (model_path_of (fst m))) models).
  nia.
Qed.

Lemma progress_counter_witness :
  current (batch two_missing MODELS N_VALUES) = 126.
Proof.
  destruct (progress_counter two_missing MODELS N_VALUES) as (C & _).
  rewrite C. reflexivity.
Defined.

Lemma list_prod_app {A B} (l1 l2 : list A) (l' : list B) :
  list_prod (l1 ++ l2) l' = list_prod l1 l' ++ list_prod l2 l'.
Proof.
  induction l1 as [| x l1 IH]; simpl; [reflexivity |].
  now rewrite IH, app_assoc.
Qed.

(** X7.  The rows of a batch over two catalogues put end to end are the
    rows of the batch over the first followed by the rows of the batch
    over the second: what a model writes depends on no other model, and
    the rows already written are never changed. *)
Theorem batch_rows_compose (w : World) (models1 models2 : list (string * string))
  (n_values : list Z) :
  csv (batch w (models1 ++ models2) n_values)
  = csv (batch w models1 n_values) ++ csv (batch w models2 n_values).
Proof.
  rewrite !batch_csv. unfold run_specs.
  now rewrite list_prod_app, filter_app, map_app.
Qed.

Lemma NoDup_map_filter {A B} (g : A -> B) (p : A -> bool) (l : list A) :
  NoDup (map g l) -> NoDup (map g (filter p l)).
Proof.
  induction l as [| x l IH]; simpl; intros ND; [constructor |].
  inversion ND as [| ? ? NI ND']; subst.
  destruct (p x); simpl; [| now apply IH].
  constructor; [| now apply IH].
  intros I. apply NI. apply in_map_iff in I as (y & E & I).
  apply filter_In in I as [I _]. apply in_map_iff. now exists y.
Qed.

Lemma run_specs_keys_NoDup (models : list (string * string)) (n_values : list Z) :
  NoDup (map fst models) -> NoDup n_values ->
  NoDup (map (fun rs : string * string * Z => (fst (fst rs), snd rs))
             (run_specs models n_values)).
Proof.
  unfold run_specs. intros NM NN.
  induction models as [| [m d] ms IH]; simpl; [constructor |].
  inversion NM as [| ? ? NI NM']; subst.
  rewrite map_app, map_map. cbn [fst snd].
  apply NoDup_app.
  - clear -NN. induction NN as [| n ns Hn _ IHn]; simpl; constructor; auto.
    intros I. apply in_map_iff in I as (n' & E & I). now injection E as ->.
  - now apply IH.
  - intros [m' n'] I1 I2.
    apply in_map_iff in I1 as (n0 & E1 & _). injection E1 as <- <-.
    apply in_map_iff in I2 as ([[m2 d2] n2] & E2 & I2). cbn in E2.
    injection E2 as -> ->. apply in_prod_iff in I2 as [I2 _].
    apply NI. apply in_map_iff. now exists (m, d2).
Qed.

Lemma catalogue_NoDup : NoDup (map fst MODELS) /\ NoDup N_VALUES.
Proof.
  split.
  - assert (E : nodup string_dec (map fst MODELS) = map fst MODELS)
      by (vm_compute; reflexivity).
    rewrite <- E. apply NoDup_nodup.
  - assert (E : nodup Z.eq_dec N_VALUES = N_VALUES) by (vm_compute; reflexivity).
    rewrite <- E. apply NoDup_nodup.
Qed.

Lemma main_row_facts (w : World) (r : Written) :
  In r (csv (fst (main w))) ->
  In (Model r, Description r) MODELS /\ In (N r) N_VALUES
  /\ Status r <> Unknown
  /\ (Time r = None -> Status r = Error)
  /\ (Status r = Sat -> Time r <> None).
Proof.
  intros I. apply main_rows in I as ([[m d] n] & I & _ & ->).
  apply in_prod_iff in I as [IM IN].
  unfold record_of, row_of. cbn [Model Description N Status Time].
  pose proof (time_absent_iff TIMEOUT (launch_of w (m, d, n))) as T.
  split; [exact IM | split; [exact IN | split; [| split]]].
  - apply status_not_unknown.
  - intros E. apply T in E. unfold run_minizinc. now rewrite E.
  - intros S E. apply T in E. unfold run_minizinc in S. now rewrite E in S.
Qed.

(** X8.  In the file written by a batch no model has two rows for the
    same size; every row carries a model and a description of the
    catalogue and a configured size; its status is never the initial one;
    its time cell is empty only for an [Error] row, and never for a [Sat]
    row. *)
Theorem written_rows_are_well_formed (w : World) :
  let rows := csv (fst (main w)) in
  NoDup (map (fun r => (Model r, N r)) rows)
  /\ forall r, In r rows ->
       In (Model r, Description r) MODELS /\ In (N r) N_VALUES
       /\ Status r <> Unknown
       /\ (Time r = None -> Status r = Error)
       /\ (Status r = Sat -> Time r <> None).
Proof.
  intros rows. split.
  - unfold rows, main. cbn [fst]. rewrite batch_csv, map_map.
    rewrite (map_ext _ (fun rs : string * string * Z => (fst (fst rs), snd rs)))
      by (now intros [[m d] n]).
    apply NoDup_map_filter.
    apply run_specs_keys_NoDup; apply catalogue_NoDup.
  - intros r I. exact (main_row_facts w r I).
Qed.

Lemma first_least_le {A} (key : A -> Q) (l : list A) (b : A) :
  first_least key l b ->
  In b l /\ forall x, In x l -> (key b <= key x)%Q.
Proof.
  intros (pre & post & -> & Hpre & Hpost). split.
  - apply in_or_app. right. now left.
  - intros x I. apply in_app_or in I as [I | [<- | I]].
    + apply Qlt_le_weak. now apply Hpre.
    + apply Qle_refl.
    + now apply Hpost.
Qed.

Lemma read_row_fields (r0 : Written) (r : Row) :
  read_row r0 = Some r ->
  Model r = Model r0 /\ Description r = Description r0 /\ N r = N r0
  /\ Status r = Status r0 /\ Solutions r = Solutions r0
  /\ (Time r = None <-> Time r0 = None).
Proof.
  unfold read_row. destruct (Time r0) as [[q | b |] |]; intros E;
    try discriminate; injection E as <-; cbn; repeat split; discriminate.
Qed.

Lemma read_rows_In (l : list Written) :
  forall rows, read_rows l = Some rows ->
  forall r, In r rows -> exists r0, In r0 l /\ read_row r0 = Some r.
Proof.
  induction l as [| r0 l IH]; intros rows E r I; cbn [read_rows] in E.
  - injection E as <-. destruct I.
  - destruct (read_row r0) as [x |] eqn:R0; [| discriminate].
    destruct (read_rows l) as [xs |]; [| discriminate].
    injection E as <-. destruct I as [<- | I].
    + exists r0. split; [now left | exact R0].
    + destruct (IH xs eq_refl r I) as (r1 & I1 & R1).
      exists r1. split; [now right | exact R1].
Qed.

Lemma main_read_row_facts (w : World) (rows : list Row) :
  read_rows (csv (fst (main w))) = Some rows ->
  forall r, In r rows ->
    In (Model r, Description r) MODELS /\ In (N r) N_VALUES
    /\ (Status r = Sat -> Time r <> None).
Proof.
  intros E r I. destruct (read_rows_In _ _ E r I) as (r0 & I0 & R0).
  destruct (read_row_fields r0 r R0) as (EM & ED & EN & ES & _ & ET).
  destruct (main_row_facts w r0 I0) as (IM & IN & _ & _ & ST).
  rewrite EM, ED, EN, ES. split; [exact IM | split; [exact IN |]].
  intros S T. apply ET in T. now apply ST.
Qed.







(** ** The best record by size *)

(** C4.  For each size [n] present in the records, both scripts report
    one entry, and it is the first record of least time among the
    records of size [n] with status [Sat] and a time: every such record
    before it has a strictly greater time, every one after it a time at
    least as great.  When there is no such record the entry is the "no
    solution" one.  In the table by size of [generate_summary_table] the
    entry is that record or [None]; in the chart of [plot_best_per_size]
    it is the bar of [n], named after the record and as high as its time,
    or named "Aucun" with height zero; in [generate_summary] it is the
    line of [n], for each configured size, and a file written by [main]
    holds configured sizes only. *)
Theorem best_per_size_is_first_minimum (rows : list Row) (n : Z) :
  In n (map N rows) ->
  let subset := filter (fun r => (N r =? n) && solved_timed r) rows in
  let best := Visualize.best_of rows n in
  let sizes := fst (fst (Visualize.plot_best_per_size rows)) in
  let labels := snd (fst (Visualize.plot_best_per_size rows)) in
  let heights := snd (Visualize.plot_best_per_size rows) in
  (forall r, In r subset <->
             In r rows /\ N r = n /\ Status r = Sat
             /\ exists t, Time r = Some t /\ time_of r = t)
  /\ match best with
     | Some b => first_least time_of subset b
     | None => subset = []
     end
  /\ In (n, best) (snd (Visualize.generate_summary_table rows))
  /\ NoDup (map fst (snd (Visualize.generate_summary_table rows)))
  /\ (forall o, In (n, o) (snd (Visualize.generate_summary_table rows)) ->
                o = best)
  /\ In n sizes
  /\ NoDup sizes
  /\ (forall i, nth_error sizes i = Some n ->
                nth_error labels i
                = Some (match best with
                        | Some b => Visualize.take_str 20 (Description b)
                        | None => "Aucun"%string
                        end)
                /\ nth_error heights i
                   = Some (match best with
                           | Some b => time_of b
                           | None => 0%Q
                           end))
  /\ (exists i, nth_error sizes i = Some n)
  /\ (In n N_VALUES ->
      In (n, best) (best_lines (generate_summary rows))
      /\ forall o, In (n, o) (best_lines (generate_summary rows)) -> o = best)
  /\ (forall (w : World) (written : list Row),
        read_rows (csv (fst (main w))) = Some written ->
        forall r, In r written -> In (N r) N_VALUES).
Proof.
  intros H subset best sizes labels heights.
  assert (S : In n (sorted_set (map N rows))) by now apply sorted_set_In.
  split; [| split; [| split; [| split; [| split; [| split;
    [| split; [| split; [| split; [| split]]]]]]]]].
  - intros r. unfold subset. rewrite filter_In. unfold solved_timed, time_of.
    rewrite !andb_true_iff, Z.eqb_eq. split.
    + intros (I & E & St & T). repeat split; auto.
      * now destruct (Status r).
      * destruct (Time r) as [t |]; [now exists t | discriminate].
    + intros (I & E & St & t & T & _). rewrite St, T. auto.
  - apply (py_min_first_least time_of subset).
  - cbn [snd Visualize.generate_summary_table]. unfold Visualize.best_table.
    apply in_map_iff. now exists n.
  - cbn [snd Visualize.generate_summary_table]. unfold Visualize.best_table.
    rewrite map_map. cbn [fst]. rewrite map_id. apply sorted_set_NoDup.
  - intros o. apply best_entries.
  - exact S.
  - apply sorted_set_NoDup.
  - intros i E. unfold labels, heights, sizes in *.
    cbn [fst snd Visualize.plot_best_per_size] in *.
    rewrite !nth_error_map, E. cbn [option_map]. fold best.
    now destruct best.
  - apply In_nth_error. exact S.
  - intros V. split.
    + apply in_map_iff. now exists n.
    + intros o. apply (best_entries rows N_VALUES).
  - intros w written E r I.
    apply (main_read_row_facts w written E r I).
Qed.

Lemma best_per_size_is_first_minimum_witness :
  In (8, Some (mkRow "02_global.mzn" "B" 8 Sat (Some 0.5%Q) None None None 1))
     (snd (Visualize.generate_summary_table scenario_c))
  /\ In (10, None) (snd (Visualize.generate_summary_table scenario_c))
  /\ nth_error (snd (fst (Visualize.plot_best_per_size scenario_c))) 0
     = Some "B"%string
  /\ nth_error (snd (fst (Visualize.plot_best_per_size scenario_c))) 1
     = Some "Aucun"%string
  /\ nth_error (snd (Visualize.plot_best_per_size scenario_c)) 1 = Some 0%Q.
Proof.
  assert (H8 : In 8 (map N scenario_c)) by (simpl; auto).
  assert (H10 : In 10 (map N scenario_c)) by (simpl; auto 10).
  pose proof (best_per_size_is_first_minimum scenario_c 8 H8) as P8.
  pose proof (best_per_size_is_first_minimum scenario_c 10 H10) as P10.
  cbv zeta in P8, P10.
  destruct P8 as (_ & _ & T8 & _ & _ & _ & _ & L8 & _).
  destruct P10 as (_ & _ & T10 & _ & _ & _ & _ & L10 & _).
  split; [exact T8 | split; [exact T10 |]].
  split; [exact (proj1 (L8 0%nat eq_refl)) |].
  split; [exact (proj1 (L10 1%nat eq_refl)) | exact (proj2 (L10 1%nat eq_refl))].
Defined.

(** ** The summary printed by the batch *)



Lemma written_rows_are_well_formed_witness :
  Status (mkRow "01_naive.mzn" "Naïf (contraintes binaires)" 8 Timeout
                (Some (Finite (inject_Z 300))) None None None 0) <> Unknown.
Proof.
  destruct (written_rows_are_well_formed all_killed) as [_ W].
  destruct (W (mkRow "01_naive.mzn" "Naïf (contraintes binaires)" 8 Timeout
                     (Some (Finite (inject_Z 300))) None None None 0))
    as (_ & _ & U & _).
  - vm_compute. left. reflexivity.
  - exact U.
Defined.

(** ** The model lines of the quick summary *)

Lemma dict_set_NoDup {V} (k : string) (v : V) (d : dict V) :
  NoDup (map fst d) -> NoDup (map fst (dict_set k v d)).
Proof.
  intros ND. rewrite dict_set_keys. destruct (dict_mem k d) eqn:M; [exact ND |].
  apply NoDup_app; [exact ND | repeat constructor; easy |].
  intros k' I [<- | []]. apply dict_mem_In in I. congruence.
Qed.

Lemma add_model_stats_get (rows : list Row) (d : dict (Q * Z * Z))
  (m desc k : string) :
  dict_get k (add_model_stats rows d (m, desc))
  = match solved_rows_of m rows with
    | [] => dict_get k d
    | _ :: _ => if String.eqb desc k then Some (model_values rows m)
                else dict_get k d
    end.
Proof.
  unfold add_model_stats, model_values. fold (solved_rows_of m rows).
  destruct (solved_rows_of m rows); [reflexivity |]. now rewrite dict_get_set.
Qed.

Lemma model_stats_fold (rows : list Row) (models : list (string * string)) :
  forall d : dict (Q * Z * Z),
    NoDup (map fst d) ->
    NoDup (map fst (fold_left (add_model_stats rows) models d))
    /\ forall k,
         (~ In k (map snd models) ->
          dict_get k (fold_left (add_model_stats rows) models d) = dict_get k d)
         /\ (NoDup (map snd models) ->
             forall m, In (m, k) models ->
                       dict_get k (fold_left (add_model_stats rows) models d)
                       = match solved_rows_of m rows with
                         | [] => dict_get k d
                         | _ :: _ => Some (model_values rows m)
                         end).
Proof.
  induction models as [| [m0 d0] ms IH]; intros d ND; cbn [fold_left map snd].
  - split; [exact ND |]. intros k. split; [reflexivity | intros _ m []].
  - assert (ND1 : NoDup (map fst (add_model_stats rows d (m0, d0)))).
    { unfold add_model_stats. destruct (filter _ rows); [exact ND |].
      now apply dict_set_NoDup. }
    destruct (IH _ ND1) as [N1 G]. split; [exact N1 |].
    intros k. destruct (G k) as [G1 G2]. split.
    + intros NI. rewrite G1 by (intros I; apply NI; now right).
      rewrite add_model_stats_get.
      destruct (solved_rows_of m0 rows); [reflexivity |].
      destruct (String.eqb_spec d0 k) as [-> | _]; [| reflexivity].
      exfalso. apply NI. now left.
    + intros NDs m I. inversion NDs as [| ? ? NI NDs']; subst.
      destruct I as [E | I].
      * injection E as -> ->. rewrite G1 by exact NI.
        rewrite add_model_stats_get, String.eqb_refl. reflexivity.
      * rewrite (G2 NDs' m I), add_model_stats_get.
        assert (NE : d0 <> k).
        { intros ->. apply NI. apply in_map_iff. now exists (m, k). }
        destruct (solved_rows_of m rows); [| reflexivity].
        destruct (solved_rows_of m0 rows); [reflexivity |].
        now destruct (String.eqb_spec d0 k).
Qed.

Lemma descriptions_NoDup : NoDup (map snd MODELS).
Proof.
  assert (E : nodup string_dec (map snd MODELS) = map snd MODELS)
    by (vm_compute; reflexivity).
  rewrite <- E. apply NoDup_nodup.
Qed.

Lemma filter_and_length_le {A} (p q : A -> bool) (l : list A) :
  (List.length (filter (fun x => p x && q x) l)
   <= List.length (filter p l))%nat.
Proof.
  induction l as [| x l IH]; simpl; [lia |].
  destruct (p x), (q x); simpl; lia.
Qed.

Lemma model_line_entry (rows : list Row) (d : string) (v : Q * Z * Z) :
  In (d, v) (model_lines (generate_summary rows)) ->
  exists m, In (m, d) MODELS /\ solved_rows_of m rows <> []
            /\ v = model_values rows m.
Proof.
  cbn [generate_summary model_lines]. unfold Benchmark.sorted_models. intros I.
  apply (Permutation_in _ (sorted_perm _ _)) in I.
  destruct (model_stats_fold rows MODELS [] (NoDup_nil _)) as [ND G].
  fold (model_stats rows) in ND, G.
  assert (K : In d (map fst (model_stats rows))).
  { apply in_map_iff. now exists (d, v). }
  apply dict_get_entry in I; [| exact ND].
  unfold model_stats in K. apply model_stats_keys in K as [[] | (m & IM & NE)].
  fold (model_stats rows) in I.
  exists m. split; [exact IM | split; [exact NE |]].
  rewrite (proj2 (G d) descriptions_NoDup m IM) in I.
  destruct (solved_rows_of m rows); [contradiction | now injection I].
Qed.

(** X10.  Each model line of the quick summary belongs to one model of
    the catalogue and no two lines to the same one; it carries the mean of
    the times of the solved rows of this model, their number, which is at
    least one, and the number of all rows of the model, which is at least
    the number of solved ones. *)
Theorem summary_model_lines (rows : list Row) :
  NoDup (map fst (model_lines (generate_summary rows)))
  /\ forall d avg solved total,
       In (d, (avg, solved, total)) (model_lines (generate_summary rows)) ->
       exists m,
         In (m, d) MODELS
         /\ avg = mean (map time_of (solved_rows_of m rows))
         /\ solved = Z.of_nat (List.length (solved_rows_of m rows))
         /\ total = Z.of_nat (List.length
                               (filter (fun r => String.eqb (Model r) m) rows))
         /\ 1 <= solved <= total.
Proof.
  split.
  - cbn [generate_summary model_lines]. unfold Benchmark.sorted_models.
    apply (Permutation_NoDup (l := map fst (model_stats rows))).
    + apply Permutation_map. symmetry. apply sorted_perm.
    + apply (model_stats_fold rows MODELS [] (NoDup_nil _)).
  - intros d avg solved total I.
    apply model_line_entry in I as (m & IM & NE & E).
    unfold model_values in E. injection E as -> -> ->.
    exists m. repeat split; auto.
    + destruct (solved_rows_of m rows); [contradiction | simpl; lia].
    + apply Nat2Z.inj_le. unfold solved_rows_of. apply filter_and_length_le.
Qed.

Lemma summary_model_lines_witness :
  exists m, In (m, "Naïf (contraintes binaires)"%string) MODELS
            /\ (2.0 == mean (map time_of (solved_rows_of m scenario_d)))%Q.
Proof.
  destruct (proj2 (summary_model_lines scenario_d)
              "Naïf (contraintes binaires)"%string
              (mean [1.0; 3.0])%Q 2 3) as (m & I & E & _).
  - left. reflexivity.
  - exists m. split; [exact I |]. rewrite <- E. reflexivity.
Defined.

Lemma StronglySorted_weaken {A} (R S : A -> A -> Prop) (l : list A) :
  (forall a b, R a b -> S a b) -> StronglySorted R l -> StronglySorted S l.
Proof.
  intros W H. induction H as [| a l H IH F]; constructor; auto.
  eapply Forall_impl; [| exact F]. intros b. apply W.
Qed.

(** X11.  The model lines of the quick summary stand in ascending order
    of mean time: no line has a mean time greater than that of a line
    after it. *)
Theorem summary_model_lines_sorted (rows : list Row) :
  StronglySorted
    (fun a b : string * (Q * Z * Z) =>
       (fst (fst (snd a)) <= fst (fst (snd b)))%Q)
    (model_lines (generate_summary rows)).
Proof.
  cbn [generate_summary model_lines]. unfold Benchmark.sorted_models.
  apply (StronglySorted_weaken
           (not_after (fun a b : string * (Q * Z * Z) =>
                         Qlt_bool (fst (fst (snd a))) (fst (fst (snd b)))))).
  - intros a b. unfold not_after. apply Qlt_bool_false.
  - apply sorted_is_sorted.
    + intros a b. rewrite Qlt_bool_iff, Qlt_bool_false. apply Qlt_le_weak.
    + intros a b c. unfold not_after. rewrite !Qlt_bool_false.
      intros H1 H2. now apply Qle_trans with (fst (fst (snd b))).
Qed.

(** ** The per-model table of visualize.py, beyond the claims *)

Section DictSums.

Context {V : Type} (g : V -> Z).

Lemma dict_update_sum (k : string) (f : V -> V) (c : Z) (d : dict V) :
  (forall v, g (f v) = g v + c) ->
  dict_mem k d = true ->
  dict_sum g (dict_update k f d) = dict_sum g d + c.
Proof.
  intros F. unfold dict_sum, dict_mem.
  induction d as [| [k' v'] d IH]; simpl; [discriminate |].
  destruct (String.eqb k' k); simpl; intros M.
  - rewrite F. lia.
  - rewrite (IH M). lia.
Qed.

Lemma dict_set_new_sum (k : string) (v : V) (d : dict V) :
  dict_mem k d = false -> dict_sum g (dict_set k v d) = dict_sum g d + g v.
Proof.
  unfold dict_sum, dict_mem.
  induction d as [| [k' v'] d IH]; simpl; [lia |].
  destruct (String.eqb k' k); simpl; intros M; [discriminate |].
  rewrite (IH M). lia.
Qed.

Lemma dict_sum_perm (d d' : dict V) :
  Permutation d d' -> dict_sum g d = dict_sum g d'.
Proof.
  unfold dict_sum. induction 1; simpl; lia.
Qed.

End DictSums.

Lemma dict_mem_set {V} (k : string) (v : V) (d : dict V) :
  dict_mem k (dict_set k v d) = true.
Proof. unfold dict_mem. now rewrite dict_get_set, String.eqb_refl. Qed.

Lemma add_row_sum (g : Visualize.ModelData -> Z) (c : Z)
  (d : dict Visualize.ModelData) (r : Row) :
  g Visualize.empty_data = 0 ->
  (forall v, g (Visualize.count_row v r) = g v + c) ->
  dict_sum g (Visualize.add_row d r) = dict_sum g d + c.
Proof.
  intros G0 G. unfold Visualize.add_row.
  destruct (dict_mem (Description r) d) eqn:M.
  - now apply dict_update_sum.
  - rewrite (dict_update_sum g _ _ c) by (auto using dict_mem_set).
    rewrite dict_set_new_sum by exact M. lia.
Qed.

Lemma models_data_sums (rows : list Row) :
  forall d,
    dict_sum Visualize.total (fold_left Visualize.add_row rows d)
    = dict_sum Visualize.total d + Z.of_nat (List.length rows)
    /\ dict_sum Visualize.solved (fold_left Visualize.add_row rows d)
       = dict_sum Visualize.solved d
         + Z.of_nat (List.length (filter is_sat rows)).
Proof.
  induction rows as [| r rows IH]; intros d; cbn [fold_left filter List.length].
  - split; lia.
  - destruct (IH (Visualize.add_row d r)) as [T S]. rewrite T, S.
    rewrite (add_row_sum Visualize.total 1) by
      (reflexivity || intros v; apply count_row_totals).
    rewrite (add_row_sum Visualize.solved (if is_sat r then 1 else 0)) by
      (reflexivity || intros v; apply count_row_totals).
    split; [lia |]. destruct (is_sat r); cbn [List.length]; lia.
Qed.

(** X13.  The table by model of [generate_summary_table] counts every
    record once: the totals of its lines add up to the number of records,
    and the solved counts to the number of [Sat] records. *)
Theorem summary_table_counts_every_row (rows : list Row) :
  let lines := fst (Visualize.generate_summary_table rows) in
  sum_Z (map Visualize.line_total lines) = Z.of_nat (List.length rows)
  /\ sum_Z (map Visualize.line_solved lines)
     = Z.of_nat (List.length (filter is_sat rows)).
Proof.
  cbn [fst Visualize.generate_summary_table]. rewrite !map_map.
  destruct (models_data_sums rows []) as [T S].
  fold (Visualize.models_data rows) in T, S.
  assert (P : Permutation (Visualize.sorted_models rows) (Visualize.models_data rows))
    by apply sorted_perm.
  split.
  - rewrite (map_ext _ (fun e => Visualize.total (snd e))) by now intros [k v].
    change (dict_sum Visualize.total (Visualize.sorted_models rows)
            = Z.of_nat (List.length rows)).
    rewrite (dict_sum_perm _ _ _ P), T. reflexivity.
  - rewrite (map_ext _ (fun e => Visualize.solved (snd e))) by now intros [k v].
    change (dict_sum Visualize.solved (Visualize.sorted_models rows)
            = Z.of_nat (List.length (filter is_sat rows))).
    rewrite (dict_sum_perm _ _ _ P), S. reflexivity.
Qed.

Lemma rows_of_nonempty (k : string) (rows : list Row) :
  In k (map Description rows) -> rows_of k rows <> [].
Proof.
  intros I. apply in_map_iff in I as (r & <- & I). unfold rows_of.
  assert (J : In r (filter (fun x => String.eqb (Description x) (Description r)) rows))
    by (apply filter_In; split; [exact I | apply String.eqb_refl]).
  intros E. now rewrite E in J.
Qed.

Lemma percent_bounds (solved total : Z) :
  0 <= solved <= total -> 1 <= total ->
  (0 <= inject_Z (100 * solved) / inject_Z total
   /\ inject_Z (100 * solved) / inject_Z total <= 100)%Q.
Proof.
  intros B P.
  assert (T : (0 < inject_Z total)%Q) by (rewrite <- (Zlt_Qlt 0); lia).
  split.
  - apply Qle_shift_div_l; [exact T |]. rewrite Qmult_0_l.
    rewrite <- (Zle_Qle 0). lia.
  - apply Qle_shift_div_r; [exact T |].
    change 100%Q with (inject_Z 100). rewrite <- inject_Z_mult, <- Zle_Qle. lia.
Qed.

(** X14.  On every line of the table by model the total is at least one,
    so that the rate is never a division by zero; the solved count lies
    between zero and the total, and the rate between 0 and 100. *)
Theorem summary_table_rates (rows : list Row) (line : Visualize.Line) :
  In line (fst (Visualize.generate_summary_table rows)) ->
  1 <= Visualize.line_total line
  /\ 0 <= Visualize.line_solved line <= Visualize.line_total line
  /\ (0 <= Visualize.rate line /\ Visualize.rate line <= 100)%Q.
Proof.
  cbn [fst Visualize.generate_summary_table]. intros I.
  apply in_map_iff in I as ([k v] & <- & I).
  destruct (entry_totals rows (k, v) I) as (T & S & _). cbn [fst snd] in T, S.
  assert (K : In k (map Description rows)).
  { apply models_data_keys. apply sorted_models_entry in I.
    apply in_map_iff. now exists (k, v). }
  apply rows_of_nonempty in K.
  assert (B : 1 <= Visualize.total v
              /\ 0 <= Visualize.solved v <= Visualize.total v).
  { rewrite T, S. pose proof (filter_length_le is_sat (rows_of k rows)).
    destruct (rows_of k rows); [contradiction | cbn [List.length] in *; lia]. }
  cbn [Visualize.line_of Visualize.line_total Visualize.line_solved Visualize.rate].
  destruct B as [B1 B2]. split; [exact B1 | split; [exact B2 |]].
  now apply percent_bounds.
Qed.

Lemma summary_table_rates_witness :
  (0 <= inject_Z (100 * 2) / inject_Z 3
   /\ inject_Z (100 * 2) / inject_Z 3 <= 100)%Q.
Proof.
  apply (summary_table_rates scenario_d
           (Visualize.mkLine "Naïf (contraintes binaires)" (mean [1.0; 3.0])%Q
                             0%Q 2 3 (inject_Z (100 * 2) / inject_Z 3)%Q)).
  left. reflexivity.
Defined.

(** ** The charts by model *)

Section DictMap.

Context {V W : Type} (p : V -> W).

Lemma dict_map_get (k : string) (d : dict V) :
  dict_get k (dict_map p d) = option_map p (dict_get k d).
Proof.
  induction d as [| [k' v] d IH]; simpl; [reflexivity |].
  now destruct (String.eqb k' k).
Qed.

Lemma dict_map_mem (k : string) (d : dict V) :
  dict_mem k (dict_map p d) = dict_mem k d.
Proof. unfold dict_mem. rewrite dict_map_get. now destruct (dict_get k d). Qed.

Lemma dict_map_set (k : string) (v : V) (d : dict V) :
  dict_set k (p v) (dict_map p d) = dict_map p (dict_set k v d).
Proof.
  induction d as [| [k' v'] d IH]; simpl; [reflexivity |].
  destruct (String.eqb k' k); simpl; [reflexivity | now rewrite IH].
Qed.

Lemma dict_map_update (k : string) (f : V -> V) (f' : W -> W) (d : dict V) :
  (forall v, f' (p v) = p (f v)) ->
  dict_update k f' (dict_map p d) = dict_map p (dict_update k f d).
Proof.
  intros F. induction d as [| [k' v'] d IH]; simpl; [reflexivity |].
  destruct (String.eqb k' k); simpl; [now rewrite F | now rewrite IH].
Qed.

End DictMap.

Lemma tally_row_of (v : Visualize.ModelData) (r : Row) :
  Charts.tally_row (tally_of v) r = tally_of (Visualize.count_row v r).
Proof.
  unfold Charts.tally_row, Visualize.count_row, tally_of.
  destruct (status_eqb (Status r) Sat); destruct (Time r); destruct (Nodes r);
    reflexivity.
Qed.

Lemma add_tally_of (d : dict Visualize.ModelData) (r : Row) :
  Charts.add_tally (dict_map tally_of d) r
  = dict_map tally_of (Visualize.add_row d r).
Proof.
  unfold Charts.add_tally, Visualize.add_row. rewrite dict_map_mem.
  change (Charts.mkTally 0 0) with (tally_of Visualize.empty_data).
  destruct (dict_mem (Description r) d).
  - apply dict_map_update. intros v. apply tally_row_of.
  - rewrite dict_map_set. apply dict_map_update. intros v. apply tally_row_of.
Qed.

Lemma models_stats_of_data (rows : list Row) :
  Charts.models_stats rows = dict_map tally_of (Visualize.models_data rows).
Proof.
  unfold Charts.models_stats, Visualize.models_data.
  change (@nil (string * Charts.Tally)) with (dict_map tally_of []).
  generalize (@nil (string * Visualize.ModelData)).
  induction rows as [| r rows IH]; intros d; cbn [fold_left]; [reflexivity |].
  now rewrite add_tally_of, IH.
Qed.

Lemma ranked_entry (rows : list Row) (e : string * Charts.Tally) :
  In e (Charts.ranked rows) ->
  In (fst e) (map Description rows)
  /\ 1 <= Charts.total (snd e)
  /\ 0 <= Charts.solved (snd e) <= Charts.total (snd e).
Proof.
  unfold Charts.ranked. intros I.
  apply (Permutation_in _ (sorted_perm _ _)) in I.
  rewrite models_stats_of_data in I. unfold dict_map in I.
  apply in_map_iff in I as ([k v] & <- & I). cbn [fst snd tally_of].
  cbn [Charts.total Charts.solved].
  assert (K : In k (map Description rows)).
  { apply models_data_keys. apply in_map_iff. now exists (k, v). }
  apply sorted_models_entry in I.
  destruct (entry_totals rows (k, v) I) as (T & S & _). cbn [fst snd] in T, S.
  split; [exact K |]. apply rows_of_nonempty in K.
  unfold tally_of. cbn [Charts.total Charts.solved]. rewrite T, S.
  pose proof (filter_length_le is_sat (rows_of k rows)).
  destruct (rows_of k rows); [contradiction | cbn [List.length] in *; lia].
Qed.

Lemma percent_of_ratio (e : string * Charts.Tally) :
  (Charts.percent e == 100 * Charts.ratio e)%Q.
Proof.
  unfold Charts.percent, Charts.ratio, Qdiv.
  rewrite inject_Z_mult. change (inject_Z 100) with 100%Q. ring.
Qed.

Lemma StronglySorted_map {A B} (f : A -> B) (R : B -> B -> Prop) (l : list A) :
  StronglySorted (fun a b => R (f a) (f b)) l -> StronglySorted R (map f l).
Proof.
  induction 1 as [| a l H IH F]; simpl; constructor; auto.
  apply Forall_map. exact F.
Qed.

(** X15.  The chart of success rates has one bar for each model that
    has a record, counted as in the table by model; every bar is between
    0 and 100; the bars stand in descending order. *)
Theorem success_rate_chart (rows : list Row) :
  let names := fst (Charts.plot_success_rate rows) in
  let bars := snd (Charts.plot_success_rate rows) in
  Charts.models_stats rows = dict_map tally_of (Visualize.models_data rows)
  /\ NoDup (map fst (Charts.ranked rows))
  /\ (forall k, In k (map fst (Charts.ranked rows))
                <-> In k (map Description rows))
  /\ List.length names = List.length (Charts.ranked rows)
  /\ List.length bars = List.length (Charts.ranked rows)
  /\ Forall (fun x => 0 <= x /\ x <= 100)%Q bars
  /\ StronglySorted (fun x y => y <= x)%Q bars.
Proof.
  intros names bars.
  assert (P : Permutation (map fst (Charts.ranked rows))
                          (map fst (Visualize.models_data rows))).
  { unfold Charts.ranked. rewrite (Permutation_map fst (sorted_perm _ _)).
    rewrite models_stats_of_data. unfold dict_map. rewrite map_map.
    cbn [fst]. reflexivity. }
  destruct (models_data_keys rows) as [ND K].
  split; [apply models_stats_of_data | split; [| split; [| split; [| split; [| split]]]]].
  - apply (Permutation_NoDup (l := map fst (Visualize.models_data rows)));
      [now symmetry | exact ND].
  - intros k. rewrite <- K. split; apply Permutation_in; [| symmetry]; exact P.
  - unfold names. cbn [fst Charts.plot_success_rate]. apply length_map.
  - unfold bars. cbn [snd Charts.plot_success_rate]. apply length_map.
  - unfold bars. cbn [snd Charts.plot_success_rate]. apply Forall_map.
    apply Forall_forall. intros e I.
    destruct (ranked_entry rows e I) as (_ & T & S).
    now apply percent_bounds.
  - unfold bars. cbn [snd Charts.plot_success_rate]. apply StronglySorted_map.
    apply (StronglySorted_weaken
             (not_after (fun a b => Qlt_bool (Charts.ratio b) (Charts.ratio a)))).
    + intros a b. unfold not_after. rewrite Qlt_bool_false. intros H.
      rewrite !percent_of_ratio. apply Qmult_le_l; [reflexivity | exact H].
    + apply sorted_is_sorted.
      * intros a b. rewrite Qlt_bool_iff, Qlt_bool_false. apply Qlt_le_weak.
      * intros a b c. unfold not_after. rewrite !Qlt_bool_false.
        intros H1 H2. now apply Qle_trans with (Charts.ratio b).
Qed.

(** ** The series of the two comparison charts *)

Section Series.

Context {X : Type} (cell : Row -> option X).

Lemma extend_app (o : option (list Z * list X)) (l1 l2 : list (Z * X)) :
  extend (extend o l1) l2 = extend o (l1 ++ l2).
Proof.
  destruct l1 as [| a l1]; [reflexivity |].
  destruct l2 as [| b l2]; [now rewrite app_nil_r |].
  unfold extend. simpl. rewrite !map_app, <- !app_assoc. reflexivity.
Qed.

Lemma add_point_get (k : string) (d : dict (list Z * list X)) (r : Row) :
  dict_get k (Charts.add_point cell d r)
  = extend (dict_get k d) (points cell k [r]).
Proof.
  unfold Charts.add_point, points, is_sat. cbn [flat_map].
  destruct (status_eqb (Status r) Sat); [| now rewrite andb_false_r].
  rewrite andb_true_r.
  destruct (cell r) as [x |]; [| now destruct (String.eqb _ _)].
  rewrite dict_get_update.
  destruct (String.eqb_spec (Description r) k) as [-> | ne]; cbn.
  - unfold dict_mem. destruct (dict_get k d) eqn:G.
    + now rewrite G.
    + now rewrite dict_get_set, String.eqb_refl.
  - destruct (dict_mem (Description r) d); [reflexivity |].
    rewrite dict_get_set. now destruct (String.eqb_spec (Description r) k).
Qed.

Lemma add_points_get (k : string) (rows : list Row) :
  forall d,
    dict_get k (fold_left (Charts.add_point cell) rows d)
    = extend (dict_get k d) (points cell k rows).
Proof.
  induction rows as [| r rows IH]; intros d; cbn [fold_left]; [reflexivity |].
  rewrite IH, add_point_get, extend_app. f_equal.
  unfold points. cbn [flat_map]. now rewrite app_nil_r.
Qed.

End Series.

Lemma series_lengths {X} (l : list (Z * X)) (ns : list Z) (xs : list X) :
  series_of l = Some (ns, xs) ->
  List.length ns = List.length xs /\ ns <> [].
Proof.
  destruct l as [| a l]; [discriminate |]. cbn [series_of].
  intros E. injection E as <- <-. split; [| discriminate].
  simpl. now rewrite !length_map.
Qed.

(** X16.  On the two comparison charts the series of a model is made of
    the sizes and of the values (times, or node counts) of the solved
    rows of this description whose cell is not empty, in the order of the
    file; a model without such a row has no series; the two lists of a
    series have the same length and are not empty. *)
Theorem chart_series_by_model (rows : list Row) (k : string) :
  dict_get k (Charts.time_series rows) = series_of (points Time k rows)
  /\ dict_get k (Charts.nodes_series rows) = series_of (points Nodes k rows)
  /\ (forall ns ts, dict_get k (Charts.time_series rows) = Some (ns, ts) ->
                    List.length ns = List.length ts /\ ns <> [])
  /\ (forall ns ks, dict_get k (Charts.nodes_series rows) = Some (ns, ks) ->
                    List.length ns = List.length ks /\ ns <> []).
Proof.
  assert (T : dict_get k (Charts.time_series rows) = series_of (points Time k rows)).
  { unfold Charts.time_series. rewrite add_points_get.
    now destruct (points Time k rows). }
  assert (K : dict_get k (Charts.nodes_series rows)
              = series_of (points Nodes k rows)).
  { unfold Charts.nodes_series. rewrite add_points_get.
    now destruct (points Nodes k rows). }
  split; [exact T | split; [exact K | split]].
  - intros ns ts E. rewrite T in E. now apply series_lengths in E.
  - intros ns ks E. rewrite K in E. now apply series_lengths in E.
Qed.

Lemma chart_series_by_model_witness :
  List.length [8; 10] = List.length [1.0%Q; 3.0%Q].
Proof.
  apply (proj1 (proj2 (proj2 (chart_series_by_model scenario_d
                                "Naïf (contraintes binaires)")))
           [8; 10] [1.0%Q; 3.0%Q]).
  reflexivity.
Defined.

Lemma sorted_set_ascending (l : list Z) : StronglySorted Z.lt (sorted_set l).
Proof.
  pose proof (sorted_set_NoDup l) as ND.
  assert (S : StronglySorted (not_after Z.ltb) (sorted_set l)).
  { unfold sorted_set. apply sorted_is_sorted.
    - intros a b. rewrite Z.ltb_lt, Z.ltb_ge. lia.
    - intros a b c. unfold not_after. rewrite !Z.ltb_ge. lia. }
  induction S as [| a s S IH F]; constructor.
  - apply IH. now inversion ND.
  - inversion ND as [| ? ? NI _]; subst.
    rewrite Forall_forall in *. intros b I. specialize (F b I).
    unfold not_after in F. apply Z.ltb_ge in F.
    assert (a <> b) by (intros ->; contradiction). lia.
Qed.

(** X17.  The chart of the best model by size has one bar for each size
    present in the file, in strictly ascending order of size; the bar of a
    size without a solved and timed record is named "Aucun" and has height
    zero; the bar of any other size has the height of a solved record of
    that size whose time none of them beats. *)
Theorem best_per_size_chart (rows : list Row) :
  let ns := fst (fst (Visualize.plot_best_per_size rows)) in
  let labels := snd (fst (Visualize.plot_best_per_size rows)) in
  let heights := snd (Visualize.plot_best_per_size rows) in
  List.length labels = List.length ns
  /\ List.length heights = List.length ns
  /\ StronglySorted Z.lt ns
  /\ (forall n, In n ns <-> In n (map N rows))
  /\ (forall i n, nth_error ns i = Some n ->
                  Visualize.n_results rows n = [] ->
                  nth_error labels i = Some "Aucun"%string
                  /\ nth_error heights i = Some 0%Q)
  /\ (forall i n, nth_error ns i = Some n ->
                  Visualize.n_results rows n <> [] ->
                  exists b, In b (Visualize.n_results rows n)
                            /\ nth_error heights i = Some (time_of b)
                            /\ forall r, In r (Visualize.n_results rows n) ->
                                         (time_of b <= time_of r)%Q).
Proof.
  cbn [fst snd Visualize.plot_best_per_size]. rewrite !length_map.
  split; [reflexivity | split; [reflexivity | split; [| split; [| split]]]].
  - apply sorted_set_ascending.
  - intros n. apply sorted_set_In.
  - intros i n E Z0. rewrite !nth_error_map, E. cbn [option_map].
    unfold Visualize.best_of. rewrite Z0. split; reflexivity.
  - intros i n E NE. rewrite !nth_error_map, E. cbn [option_map].
    unfold Visualize.best_of.
    pose proof (py_min_first_least time_of (Visualize.n_results rows n)) as F.
    destruct (py_min time_of (Visualize.n_results rows n)) as [b |];
      [| contradiction].
    apply first_least_le in F as [Ib Le]. now exists b.
Qed.

Lemma best_per_size_chart_witness :
  nth_error (snd (fst (Visualize.plot_best_per_size scenario_c))) 1
  = Some "Aucun"%string
  /\ nth_error (snd (Visualize.plot_best_per_size scenario_c)) 1 = Some 0%Q.
Proof.
  apply (proj1 (proj2 (proj2 (proj2 (proj2 (best_per_size_chart scenario_c)))))
           1%nat 10); reflexivity.
Defined.

(** ** Files without a solved record, and files in another order *)

Lemma filter_none {A} (p : A -> bool) (l : list A) :
  (forall x, In x l -> p x = false) -> filter p l = [].
Proof.
  induction l as [| x l IH]; intros H; simpl; [reflexivity |].
  rewrite (H x) by now left. apply IH. intros y I. apply H. now right.
Qed.

Section NothingSolved.

Variable rows : list Row.
Hypothesis unsolved : forall r, In r rows -> Status r <> Sat.

Lemma unsolved_is_sat (r : Row) : In r rows -> is_sat r = false.
Proof.
  intros I. unfold is_sat. specialize (unsolved r I). now destruct (Status r).
Qed.

Lemma unsolved_subset (p : Row -> bool) :
  filter (fun r => p r && solved_timed r) rows = [].
Proof.
  apply filter_none. intros r I. unfold solved_timed.
  fold (is_sat r). rewrite (unsolved_is_sat r I). cbn. apply andb_false_r.
Qed.

Lemma unsolved_model_stats (models : list (string * string)) :
  forall d, fold_left (add_model_stats rows) models d = d.
Proof.
  induction models as [| [m k] ms IH]; intros d; cbn [fold_left]; [reflexivity |].
  rewrite IH. unfold add_model_stats.
  now rewrite (unsolved_subset (fun r => String.eqb (Model r) m)).
Qed.

Lemma unsolved_points {X} (cell : Row -> option X) :
  forall (l : list Row) (d : dict (list Z * list X)),
    (forall r, In r l -> In r rows) ->
    fold_left (Charts.add_point cell) l d = d.
Proof.
  induction l as [| r l IH]; intros d H; cbn [fold_left]; [reflexivity |].
  rewrite IH by (intros x I; apply H; now right).
  unfold Charts.add_point. fold (is_sat r).
  now rewrite (unsolved_is_sat r) by (apply H; now left).
Qed.

End NothingSolved.

(** X18.  When no record of the file is solved, both scripts say so
    everywhere: the quick summary has no model line and names no best
    model for any size, the table by size of visualize.py holds "no
    solution" entries only, every line of the table by model shows zero
    solved, a zero mean time and a zero rate, the comparison charts have
    no series, and every bar of the success rate chart is zero. *)
Theorem nothing_solved (rows : list Row) :
  (forall r, In r rows -> Status r <> Sat) ->
  model_lines (generate_summary rows) = []
  /\ (forall n o, In (n, o) (best_lines (generate_summary rows)) -> o = None)
  /\ (forall n o, In (n, o) (snd (Visualize.generate_summary_table rows)) ->
                  o = None)
  /\ (forall line, In line (fst (Visualize.generate_summary_table rows)) ->
                   Visualize.line_solved line = 0
                   /\ Visualize.avg_time line = 0%Q
                   /\ (Visualize.rate line == 0)%Q)
  /\ Charts.time_series rows = [] /\ Charts.nodes_series rows = []
  /\ Forall (fun x => x == 0)%Q (snd (Charts.plot_success_rate rows)).
Proof.
  intros U.
  assert (B : forall n, Visualize.best_of rows n = None).
  { intros n. unfold Visualize.best_of, Visualize.n_results.
    now rewrite (unsolved_subset rows U (fun r => N r =? n)). }
  assert (S0 : forall k, filter is_sat (rows_of k rows) = []).
  { intros k. apply filter_none. intros r I. unfold rows_of in I.
    apply filter_In in I as [I _]. exact (unsolved_is_sat rows U r I). }
  split; [| split; [| split; [| split; [| split; [| split]]]]].
  - cbn [generate_summary model_lines].
    unfold Benchmark.sorted_models, model_stats.
    now rewrite (unsolved_model_stats rows U).
  - intros n o I. cbn [generate_summary best_lines] in I.
    apply (best_entries rows N_VALUES) in I. now rewrite B in I.
  - intros n o I. cbn [snd Visualize.generate_summary_table] in I.
    apply best_entries in I. now rewrite B in I.
  - intros line I. cbn [fst Visualize.generate_summary_table] in I.
    apply in_map_iff in I as ([k v] & <- & I).
    destruct (entry_totals rows (k, v) I) as (_ & S & T). cbn [fst snd] in S, T.
    cbn [Visualize.line_of Visualize.line_solved Visualize.avg_time Visualize.rate].
    rewrite (T (S0 k)), S, (S0 k).
    split; [reflexivity | split; [reflexivity |]].
    simpl. unfold Qdiv. apply Qmult_0_l.
  - unfold Charts.time_series. now apply (unsolved_points rows U).
  - unfold Charts.nodes_series. now apply (unsolved_points rows U).
  - cbn [snd Charts.plot_success_rate]. apply Forall_map, Forall_forall.
    intros e I. unfold Charts.ranked in I.
    apply (Permutation_in _ (sorted_perm _ _)) in I.
    rewrite models_stats_of_data in I. unfold dict_map in I.
    apply in_map_iff in I as ([k v] & <- & I). apply sorted_models_entry in I.
    destruct (entry_totals rows (k, v) I) as (_ & S & _). cbn [fst snd] in S.
    unfold Charts.percent, tally_of. cbn [snd Charts.solved Charts.total].
    rewrite S, (S0 k). simpl. unfold Qdiv. apply Qmult_0_l.
Qed.

Lemma nothing_solved_witness :
  List.length all_killed_rows = 135%nat
  /\ model_lines (generate_summary all_killed_rows) = [].
Proof.
  split; [vm_compute; reflexivity |].
  apply nothing_solved. intros r I.
  assert (F : forallb (fun x : Row => negb (status_eqb (Status x) Sat))
                      all_killed_rows = true) by (vm_compute; reflexivity).
  rewrite forallb_forall in F. specialize (F r I).
  intros E. rewrite E in F. discriminate.
Defined.

Lemma Permutation_filter_same {A} (p : A -> bool) (l l' : list A) :
  Permutation l l' -> Permutation (filter p l) (filter p l').
Proof.
  induction 1 as [| x l l' H IH | x y l | l1 l2 l3 H1 IH1 H2 IH2]; simpl.
  - constructor.
  - destruct (p x); [now constructor | exact IH].
  - destruct (p x), (p y); try reflexivity. apply perm_swap.
  - now transitivity (filter p l2).
Qed.

Lemma best_time_order_free (rows rows' : list Row) (n : Z) :
  Permutation rows rows' ->
  match Visualize.best_of rows n, Visualize.best_of rows' n with
  | Some b, Some b' => (time_of b == time_of b')%Q
  | None, None => True
  | _, _ => False
  end.
Proof.
  intros P. unfold Visualize.best_of.
  assert (PF : Permutation (Visualize.n_results rows n) (Visualize.n_results rows' n))
    by now apply Permutation_filter_same.
  pose proof (py_min_first_least time_of (Visualize.n_results rows n)) as F.
  pose proof (py_min_first_least time_of (Visualize.n_results rows' n)) as F'.
  destruct (py_min time_of (Visualize.n_results rows n)) as [b |],
           (py_min time_of (Visualize.n_results rows' n)) as [b' |].
  - apply first_least_le in F as [I L]. apply first_least_le in F' as [I' L'].
    apply Qle_antisym.
    + apply L. apply (Permutation_in _ (Permutation_sym PF)), I'.
    + apply L'. apply (Permutation_in _ PF), I.
  - rewrite F' in PF. apply Permutation_sym, Permutation_nil in PF.
    apply first_least_le in F as [I _]. now rewrite PF in I.
  - rewrite F in PF. apply Permutation_nil in PF.
    apply first_least_le in F' as [I _]. now rewrite PF in I.
  - exact I.
Qed.

(** X19.  The aggregates do not depend on the order of the records: for
    two files with the same records in different orders, the best time
    of each size is the same (or absent in both), and every model has in
    both tables the same total, the same solved count and the same
    rate. *)
Theorem aggregates_ignore_row_order (rows rows' : list Row) :
  Permutation rows rows' ->
  (forall n,
      match Visualize.best_of rows n, Visualize.best_of rows' n with
      | Some b, Some b' => (time_of b == time_of b')%Q
      | None, None => True
      | _, _ => False
      end)
  /\ (forall line, In line (fst (Visualize.generate_summary_table rows)) ->
        exists line',
          In line' (fst (Visualize.generate_summary_table rows'))
          /\ Visualize.line_model line' = Visualize.line_model line
          /\ Visualize.line_total line' = Visualize.line_total line
          /\ Visualize.line_solved line' = Visualize.line_solved line
          /\ Visualize.rate line' = Visualize.rate line).
Proof.
  intros P. split; [intros n; now apply best_time_order_free |].
  intros line I. cbn [fst Visualize.generate_summary_table] in *.
  apply in_map_iff in I as ([k v] & <- & I).
  assert (K : In k (map fst (Visualize.models_data rows'))).
  { apply models_data_keys.
    apply (Permutation_in _ (Permutation_map Description P)).
    apply models_data_keys. apply sorted_models_entry in I.
    apply in_map_iff. now exists (k, v). }
  apply in_map_iff in K as ([k' v'] & E & I'). cbn in E. subst k'.
  apply sorted_models_entry in I'.
  destruct (entry_totals rows (k, v) I) as (T & S & _).
  destruct (entry_totals rows' (k, v') I') as (T' & S' & _).
  cbn [fst snd] in *.
  assert (PR : Permutation (rows_of k rows) (rows_of k rows'))
    by now apply Permutation_filter_same.
  assert (ET : Visualize.total v' = Visualize.total v).
  { rewrite T, T'. now rewrite (Permutation_length PR). }
  assert (ES : Visualize.solved v' = Visualize.solved v).
  { rewrite S, S'.
    now rewrite (Permutation_length (Permutation_filter_same is_sat _ _ PR)). }
  exists (Visualize.line_of (k, v')). split.
  - apply in_map_iff. now exists (k, v').
  - cbn [Visualize.line_of Visualize.line_model Visualize.line_total
         Visualize.line_solved Visualize.rate].
    rewrite ET, ES. repeat split.
Qed.

Lemma aggregates_ignore_row_order_witness :
  match Visualize.best_of scenario_c 8, Visualize.best_of (rev scenario_c) 8 with
  | Some b, Some b' => (time_of b == time_of b')%Q
  | None, None => True
  | _, _ => False
  end.
Proof.
  apply (aggregates_ignore_row_order scenario_c (rev scenario_c)).
  apply Permutation_rev.
Defined.

(** ** Sizes as text *)

Lemma strip_spaceless (s : string) : spaceless s = true -> strip s = s.
Proof.
  intros H. unfold strip.
  assert (L : lstrip s = s).
  { destruct s as [| c s]; [reflexivity |]. simpl in *.
    apply andb_true_iff in H as [H _]. now destruct (is_space c). }
  rewrite L. induction s as [| c s IH]; [reflexivity |].
  cbn [spaceless] in H. apply andb_true_iff in H as [Hc Hs].
  cbn [rstrip]. rewrite IH.
  - destruct s; [| reflexivity]. now destruct (is_space c).
  - exact Hs.
  - destruct s as [| c' s]; [reflexivity |]. simpl in *.
    apply andb_true_iff in Hs as [Hs _]. now destruct (is_space c').
Qed.

Lemma uint_string_spaceless (d : Decimal.uint) :
  spaceless (NilEmpty.string_of_uint d) = true.
Proof. induction d; simpl; auto. Qed.

Lemma uint_string_sign (d : Decimal.uint) :
  sign (NilEmpty.string_of_uint d) = (1, NilEmpty.string_of_uint d).
Proof. destruct d; reflexivity. Qed.

Lemma digitpart_uint (d : Decimal.uint) :
  forall (acc : Z) (k : nat) (after_digit : bool),
    d <> Decimal.Nil \/ after_digit = true ->
    exists k',
      digitpart acc k after_digit (NilEmpty.string_of_uint d)
      = Some (uint_value d acc, k', EmptyString).
Proof.
  induction d; intros acc k af H;
    try (cbn [NilEmpty.string_of_uint digitpart uint_value];
         match goal with
         | |- context [is_digit ?c] =>
             change (is_digit c) with true; cbv iota;
             match goal with
             | |- context [digit_val c] =>
                 let v := eval vm_compute in (digit_val c) in
                 change (digit_val c) with v
             end
         end;
         apply IHd; now right).
  destruct H as [H | ->]; [contradiction |]. now exists k.
Qed.

Lemma uint_value_acc (d : Decimal.uint) :
  forall acc : positive,
    uint_value d (Z.pos acc) = Z.pos (Pos.of_uint_acc d acc).
Proof.
  induction d; intros acc; cbn [uint_value Pos.of_uint_acc];
    try reflexivity;
    match goal with
    | |- uint_value _ ?a = Z.pos (Pos.of_uint_acc _ ?b) =>
        replace a with (Z.pos b) by lia
    end; apply IHd.
Qed.

Lemma uint_value_of_uint (d : Decimal.uint) :
  uint_value d 0 = Z.of_N (Pos.of_uint d).
Proof.
  induction d; cbn [uint_value Pos.of_uint]; try reflexivity;
    try exact IHd;
    match goal with
    | |- uint_value _ ?a = Z.of_N (N.pos (Pos.of_uint_acc _ ?b)) =>
        change a with (Z.pos b)
    end; apply uint_value_acc.
Qed.

Lemma digitpart_positive (p : positive) :
  exists k, digitpart 0 0 false (NilEmpty.string_of_uint (Pos.to_uint p))
            = Some (Z.pos p, k, EmptyString).
Proof.
  destruct (digitpart_uint (Pos.to_uint p) 0 0%nat false) as [k E].
  - left. apply DecimalPos.Unsigned.to_uint_nonnil.
  - exists k. now rewrite E, uint_value_of_uint, DecimalPos.Unsigned.of_to.
Qed.

Lemma py_int_str (n : Z) : py_int (str n) = Some n.
Proof.
  unfold str. destruct n as [| p | p]; [reflexivity | |];
    cbn [Z.to_int NilZero.string_of_int];
    assert (E : NilZero.string_of_uint (Pos.to_uint p)
                = NilEmpty.string_of_uint (Pos.to_uint p))
      by (pose proof (DecimalPos.Unsigned.to_uint_nonnil p);
          now destruct (Pos.to_uint p));
    rewrite E; destruct (digitpart_positive p) as [k D]; unfold py_int.
  - rewrite strip_spaceless by apply uint_string_spaceless.
    rewrite uint_string_sign, D. reflexivity.
  - rewrite strip_spaceless
      by (cbn [spaceless]; now rewrite uint_string_spaceless).
    cbn [sign]. rewrite D. reflexivity.
Qed.

Lemma append_length (s t : string) :
  String.length (s ++ t)%string = (String.length s + String.length t)%nat.
Proof. induction s as [| c s IH]; simpl; [reflexivity | now rewrite IH]. Qed.

Lemma append_cancel_r (t : string) :
  forall s1 s2 : string, (s1 ++ t)%string = (s2 ++ t)%string -> s1 = s2.
Proof.
  induction s1 as [| a s1 IH]; intros [| b s2] H; simpl in H.
  - reflexivity.
  - apply (f_equal String.length) in H. simpl in H.
    rewrite append_length in H. lia.
  - apply (f_equal String.length) in H. simpl in H.
    rewrite append_length in H. lia.
  - injection H as -> H. f_equal. now apply IH.
Qed.

Lemma split_slashless (s : string) :
  slashless s = true -> split "/" s = [s].
Proof.
  induction s as [| c s IH]; [reflexivity |]. cbn [slashless split].
  intros H. apply andb_true_iff in H as [Hc Hs].
  apply negb_true_iff in Hc. rewrite Hc, (IH Hs). reflexivity.
Qed.

Lemma slashless_app (s t : string) :
  slashless s = true -> slashless t = true -> slashless (s ++ t) = true.
Proof.
  intros Hs Ht. induction s as [| c s IH]; [exact Ht |].
  cbn [slashless append] in *. apply andb_true_iff in Hs as [Hc Hs].
  now rewrite Hc, IH.
Qed.

Lemma uint_string_slashless (d : Decimal.uint) :
  slashless (NilZero.string_of_uint d) = true.
Proof.
  assert (E : forall u, slashless (NilEmpty.string_of_uint u) = true)
    by (induction u; simpl; auto).
  destruct d; try apply (E (Decimal.D0 Decimal.Nil)); apply E.
Qed.

Lemma str_slashless (n : Z) : slashless (str n) = true.
Proof.
  unfold str. destruct (Z.to_int n) as [d | d];
    cbn [NilZero.string_of_int slashless]; apply uint_string_slashless.
Qed.

(** The data file of a size is named after it, in the data directory. *)
Lemma data_path_plain (n : Z) :
  data_path_of n = ("data/n" ++ str n ++ ".dzn")%string.
Proof.
  unfold data_path_of, joinpath.
  change (prefix "/" ("n" ++ str n ++ ".dzn")) with false. cbv iota.
  unfold components at 2.
  rewrite (split_slashless ("n" ++ str n ++ ".dzn"))
    by (apply (slashless_app "n"); [reflexivity |];
        apply slashless_app; [apply str_slashless | reflexivity]).
  cbn [filter].
  replace (("n" ++ str n ++ ".dzn")%string =? "")%string with false
    by reflexivity.
  replace (("n" ++ str n ++ ".dzn")%string =? ".")%string with false
    by reflexivity.
  reflexivity.
Qed.

(** The model files of the catalogue lie in the models directory under
    their own names. *)
Lemma model_paths_plain :
  forallb (fun m => String.eqb (model_path_of (fst m)) ("models/" ++ fst m))
          MODELS = true.
Proof. vm_compute. reflexivity. Qed.

(** X20.  Two different sizes never have the same data file path: each
    size is tested and solved on a data file of its own. *)
Theorem data_paths_are_distinct (n m : Z) :
  n <> m -> data_path_of n <> data_path_of m.
Proof.
  intros NE H. apply NE. rewrite !data_path_plain in H. simpl in H.
  injection H as H. apply append_cancel_r in H.
  apply (f_equal py_int) in H. rewrite !py_int_str in H. now injection H.
Qed.

Lemma data_paths_are_distinct_witness :
  data_path_of 8 <> data_path_of 10.
Proof.
  apply data_paths_are_distinct. discriminate.
Defined.
